(** * Portfolio site: a shallow embedding of the React components

    The repository is a small Next.js site made of five components:
    [Navigation], [Footer], [HomePage], [ContactPage] and [BlogsPage].
    Each component is embedded as a function from its hook state (the values
    held by [useState]) to a typed view, the event handlers that the JSX
    attaches are embedded as functions on that state, and the two
    [setTimeout] calls of [handleSubmit] are embedded with an explicit timer
    queue and clock.

    Styling ([className]) and static prose are not part of the views; every
    piece of the output that is computed (a [.map] over an array, a
    conditional, a handler, a [disabled] flag, a formatted date) is. *)

From Stdlib Require Import ZArith String Ascii List DecimalString Lia.
From stdpp Require Import gmap strings list fin_maps.

Local Open Scope string_scope.

(** ** Host platform: the part of [Date] that [formatDate] uses

    [new Date(s)] on a date-only ISO string ([YYYY-MM-DD]) yields the time
    value of midnight UTC of that day (ECMA-262, Date Time String Format).
    [toLocaleDateString] without a [timeZone] option converts the time value
    to the local time of the host before it extracts year, month and day, so
    the host's time-zone offset is an input of the function. *)
Module JSDate.
Local Open Scope Z_scope.

Definition msPerDay : Z := 86400000.

(** The host environment: the offset, in milliseconds, of local time from
    UTC at a given time value (the specification's LocalTZA). *)
Record Env := { LocalTZA : Z -> Z }.

Definition digit (c : ascii) : option Z :=
  let n := Z.of_nat (nat_of_ascii c) in
  if (48 <=? n) && (n <=? 57) then Some (n - 48) else None.

Fixpoint digits (acc : Z) (cs : list ascii) : option Z :=
  match cs with
  | [] => Some acc
  | c :: cs' =>
      match digit c with
      | Some d => digits (10 * acc + d) cs'
      | None => None
      end
  end.

Definition isLeapYear (y : Z) : bool :=
  ((y mod 4 =? 0) && negb (y mod 100 =? 0)) || (y mod 400 =? 0).

Definition daysInMonth (y m : Z) : Z :=
  if m =? 2 then (if isLeapYear y then 29 else 28)
  else if (m =? 4) || (m =? 6) || (m =? 9) || (m =? 11) then 30
  else 31.

(** Day number (days since 1970-01-01) of a proleptic Gregorian date. *)
Definition daysFromCivil (y m d : Z) : Z :=
  let y' := if m <=? 2 then y - 1 else y in
  let era := y' / 400 in
  let yoe := y' - era * 400 in
  let doy := (153 * (if 2 <? m then m - 3 else m + 9) + 2) / 5 + d - 1 in
  let doe := yoe * 365 + yoe / 4 - yoe / 100 + doy in
  era * 146097 + doe - 719468.

(** Year, month (1..12) and day of month of a day number. *)
Definition civilFromDays (z : Z) : Z * Z * Z :=
  let z := z + 719468 in
  let era := z / 146097 in
  let doe := z - era * 146097 in
  let yoe := (doe - doe / 1460 + doe / 36524 - doe / 146096) / 365 in
  let doy := doe - (365 * yoe + yoe / 4 - yoe / 100) in
  let mp := (5 * doy + 2) / 153 in
  let d := doy - (153 * mp + 2) / 5 + 1 in
  let m := if mp <? 10 then mp + 3 else mp - 9 in
  (yoe + era * 400 + (if m <=? 2 then 1 else 0), m, d).

(** [new Date(s)] for the date-only form; [None] is the invalid date.  A
    day past the end of its month is taken as invalid, as the format
    requires; engines may instead fall back to rolling it over into the
    next month. *)
Definition parse (s : string) : option Z :=
  match list_ascii_of_string s with
  | [y1; y2; y3; y4; "-"%char; m1; m2; "-"%char; d1; d2] =>
      match digits 0 [y1; y2; y3; y4], digits 0 [m1; m2], digits 0 [d1; d2] with
      | Some y, Some m, Some d =>
          if (1 <=? m) && (m <=? 12) && (1 <=? d) && (d <=? daysInMonth y m)
          then Some (daysFromCivil y m d * msPerDay)
          else None
      | _, _, _ => None
      end
  | _ => None
  end.

Definition Day (t : Z) : Z := t / msPerDay.

Definition LocalTime (env : Env) (t : Z) : Z := t + LocalTZA env t.

Definition monthName (m : Z) : string :=
  match m with
  | 1 => "January" | 2 => "February" | 3 => "March" | 4 => "April"
  | 5 => "May" | 6 => "June" | 7 => "July" | 8 => "August"
  | 9 => "September" | 10 => "October" | 11 => "November" | _ => "December"
  end.

Definition decimal (n : Z) : string :=
  NilZero.string_of_uint (N.to_uint (Z.to_N n)).

(** The en-US pattern for a long month, numeric day and numeric year, for
    years from 1 on (earlier years are printed by era). *)
Definition longDate (ymd : Z * Z * Z) : string :=
  let '(y, m, d) := ymd in
  monthName m ++ " " ++ decimal d ++ ", " ++ decimal y.

(** [toLocaleDateString("en-US", {year: "numeric", month: "long",
    day: "numeric"})] *)
Definition toLocaleDateString (env : Env) (t : option Z) : string :=
  match t with
  | None => "Invalid Date"
  | Some t => longDate (civilFromDays (Day (LocalTime env t)))
  end.

(** Two hosts: one on UTC, one five hours behind it (New York in winter). *)
Definition UTC : Env := {| LocalTZA := fun _ => 0 |}.
Definition NewYorkWinter : Env := {| LocalTZA := fun _ => -5 * 3600000 |}.
(** The date-only form [YYYY-MM-DD] of a calendar date, as the literals of
    [blogPosts] write it. *)
Definition digitChar (k : Z) : ascii := ascii_of_nat (Z.to_nat (48 + k)).

Definition isoDate (y m d : Z) : string :=
  string_of_list_ascii
    [digitChar (y / 1000); digitChar (y / 100 mod 10);
     digitChar (y / 10 mod 10); digitChar (y mod 10); "-"%char;
     digitChar (m / 10); digitChar (m mod 10); "-"%char;
     digitChar (d / 10); digitChar (d mod 10)].

(** The calendar day before a given one. *)
Definition dayBefore (ymd : Z * Z * Z) : Z * Z * Z :=
  let '(y, m, d) := ymd in
  if 1 <? d then (y, m, d - 1)
  else if 1 <? m then (y, m - 1, daysInMonth y (m - 1))
  else (y - 1, 12, 31).
End JSDate.

(** ** Widgets shared by the views

    [Button] and [Link] come from the UI kit and from Next.js; they forward
    their props to the DOM element.  A view keeps what the component passes:
    the label, the target, the [disabled] flag and the handler, if any.  The
    handler is a value of the component's action type [A]. *)
Module Widget.
Inductive Icon :=
| Menu | X | Github | Linkedin | Mail | Phone | MapPin | Send | Clock
| MessageSquare | User | CheckCircle | Calendar | ArrowRight | Search
| Brain | Code | Database | Blocks | TrendingUp | BookOpen | Filter
| Download | ExternalLink | GraduationCap | Briefcase | Award.

Record Link (A : Type) := {
  href : string;
  label : string;
  linkClick : option A
}.
Arguments href {A} _.
Arguments label {A} _.
Arguments linkClick {A} _.

Record Button (A : Type) := {
  text : string;
  variant : string;
  disabled : bool;
  onClick : option A
}.
Arguments text {A} _.
Arguments variant {A} _.
Arguments disabled {A} _.
Arguments onClick {A} _.

(** A click runs the element's handler, if it has one and the element is
    not disabled; otherwise the state is left as it is. *)
Definition clickButton {A S : Type} (handle : A -> S -> S)
    (b : Button A) (s : S) : S :=
  match onClick b with
  | Some a => if disabled b then s else handle a s
  | None => s
  end.

Definition clickLink {A S : Type} (handle : A -> S -> S)
    (l : Link A) (s : S) : S :=
  match linkClick l with
  | Some a => handle a s
  | None => s
  end.
End Widget.

(** ** BlogsPage (src/app/blogs/page.tsx) *)
Module Blogs.
Import Widget.

Record BlogPost := {
  id : Z;
  title : string;
  excerpt : string;
  category : string;
  readTime : string;
  publishDate : string;
  tags : list string;
  featured : bool;
  icon : Icon
}.

Definition blogPosts : list BlogPost := [
  {| id := 1;
     title := "Building Scalable AI Models with TensorFlow and PyTorch";
     excerpt := "A comprehensive guide to developing and deploying machine learning models that can handle production-level workloads. Learn best practices for model architecture, training optimization, and deployment strategies.";
     category := "AI/ML";
     readTime := "8 min read";
     publishDate := "2024-12-15";
     tags := ["TensorFlow"; "PyTorch"; "Machine Learning"; "Scalability"];
     featured := true;
     icon := Brain |};
  {| id := 2;
     title := "Blockchain Integration in Modern Web Applications";
     excerpt := "Exploring how to integrate blockchain technology into web applications using Web3.js and smart contracts. From wallet connections to transaction handling, this guide covers it all.";
     category := "Blockchain";
     readTime := "12 min read";
     publishDate := "2024-12-10";
     tags := ["Blockchain"; "Web3.js"; "Smart Contracts"; "Ethereum"];
     featured := true;
     icon := Blocks |};
  {| id := 3;
     title := "Full-Stack Development with Django and React";
     excerpt := "Learn how to build robust full-stack applications using Django for the backend and React for the frontend. Includes authentication, API design, and deployment strategies.";
     category := "Web Development";
     readTime := "15 min read";
     publishDate := "2024-12-05";
     tags := ["Django"; "React"; "Full-Stack"; "API Development"];
     featured := false;
     icon := Code |};
  {| id := 4;
     title := "Data Pipeline Optimization for ML Workflows";
     excerpt := "Optimizing data pipelines for machine learning workflows using modern tools and techniques. Learn about data preprocessing, feature engineering, and automated ML pipelines.";
     category := "Data Science";
     readTime := "10 min read";
     publishDate := "2024-11-28";
     tags := ["Data Science"; "ML Pipelines"; "Feature Engineering"; "Automation"];
     featured := false;
     icon := Database |};
  {| id := 5;
     title := "Computer Vision Applications in Healthcare";
     excerpt := "Exploring the applications of computer vision in healthcare, from medical image analysis to diagnostic assistance. Learn about CNN architectures and real-world implementations.";
     category := "AI/ML";
     readTime := "11 min read";
     publishDate := "2024-11-20";
     tags := ["Computer Vision"; "Healthcare"; "CNN"; "Medical Imaging"];
     featured := false;
     icon := Brain |};
  {| id := 6;
     title := "RESTful API Design Best Practices";
     excerpt := "A comprehensive guide to designing and implementing RESTful APIs that are scalable, maintainable, and developer-friendly. Includes authentication, versioning, and documentation strategies.";
     category := "Web Development";
     readTime := "9 min read";
     publishDate := "2024-11-15";
     tags := ["REST API"; "Backend Development"; "API Design"; "FastAPI"];
     featured := false;
     icon := Code |}
].

Definition categories : list string :=
  ["All"; "AI/ML"; "Web Development"; "Blockchain"; "Data Science"].

(** [blogPosts.filter((post) => post.featured)] and its complement, for
    any array of posts. *)
Definition featuredOf (posts : list BlogPost) : list BlogPost :=
  filter (fun post => featured post) posts.
Definition recentOf (posts : list BlogPost) : list BlogPost :=
  filter (fun post => ¬ featured post) posts.

Definition featuredPosts : list BlogPost := featuredOf blogPosts.
Definition recentPosts : list BlogPost := recentOf blogPosts.

Definition formatDate (env : JSDate.Env) (dateString : string) : string :=
  JSDate.toLocaleDateString env (JSDate.parse dateString).

(** The component has no [useState] and attaches no handler: its action
    type is empty. *)
Definition Action : Type := Empty_set.

Record PostCard := {
  key : Z;
  cardIcon : option Icon;
  cardCategory : string;
  featuredBadge : bool;
  cardTitle : string;
  cardExcerpt : string;
  cardDate : string;
  cardReadTime : string;
  cardTags : list string;
  readMore : Button Action
}.

Record View := {
  searchPlaceholder : string;
  categoryButtons : list (Button Action);
  featuredSection : list PostCard;
  recentSection : list PostCard;
  subscribe : Button Action;
  topics : list string;
  suggestTopic : Link Action
}.

Definition readMoreButton : Button Action :=
  {| text := "Read More"; variant := "ghost"; disabled := false; onClick := None |}.

Definition featuredCard (env : JSDate.Env) (post : BlogPost) : PostCard :=
  {| key := id post;
     cardIcon := None;
     cardCategory := category post;
     featuredBadge := true;
     cardTitle := title post;
     cardExcerpt := excerpt post;
     cardDate := formatDate env (publishDate post);
     cardReadTime := readTime post;
     cardTags := firstn 3 (tags post);
     readMore := readMoreButton |}.

Definition recentCard (env : JSDate.Env) (post : BlogPost) : PostCard :=
  {| key := id post;
     cardIcon := Some (icon post);
     cardCategory := category post;
     featuredBadge := false;
     cardTitle := title post;
     cardExcerpt := excerpt post;
     cardDate := formatDate env (publishDate post);
     cardReadTime := readTime post;
     cardTags := firstn 2 (tags post);
     readMore := readMoreButton |}.

Definition categoryButton (category : string) : Button Action :=
  {| text := category;
     variant := if String.eqb category "All" then "default" else "outline";
     disabled := false;
     onClick := None |}.

Definition BlogsPage (env : JSDate.Env) : View :=
  {| searchPlaceholder := "Search articles...";
     categoryButtons := map categoryButton categories;
     featuredSection := map (featuredCard env) featuredPosts;
     recentSection := map (recentCard env) recentPosts;
     subscribe := {| text := "Subscribe"; variant := "default";
                     disabled := false; onClick := None |};
     topics := ["Machine Learning"; "Deep Learning"; "Computer Vision";
                "Natural Language Processing"; "React"; "Django"; "FastAPI";
                "Blockchain"; "Smart Contracts"; "Data Science"; "Python";
                "TensorFlow"; "PyTorch"; "Web3"; "API Development"];
     suggestTopic := {| href := "/contact"; label := "Suggest a Topic";
                        linkClick := None |} |}.

(** The page has no [useState]: its hook state is the empty tuple, and
    a handler, had the view one, would act on that. *)
Definition State : Type := unit.
Definition handle (a : Action) (s : State) : State := match a with end.
Definition render (env : JSDate.Env) (s : State) : View := BlogsPage env.
End Blogs.

(** ** Navigation (src/components/navigation.tsx, first component) *)
Module Nav.
Import Widget.

(** [const [isOpen, setIsOpen] = useState(false)]: the whole state. *)
Definition State : Type := bool.
Definition initial : State := false.

(** Both handlers are calls of the setter; the argument is computed when
    the JSX is built, from the [isOpen] of that render. *)
Inductive Action := setIsOpen (b : bool).

Definition handle (a : Action) (isOpen : State) : State :=
  match a with setIsOpen b => b end.

Record NavItem := { itemHref : string; itemLabel : string }.

Definition navItems : list NavItem := [
  {| itemHref := "/"; itemLabel := "Home" |};
  {| itemHref := "/contact"; itemLabel := "Contact" |};
  {| itemHref := "/blogs"; itemLabel := "Blogs" |}
].

Definition socialLinks : list (Link Action) := [
  {| href := "https://github.com/Nihalht"; label := "GitHub"; linkClick := None |};
  {| href := "https://linkedin.com/in/nihal-h-t"; label := "LinkedIn"; linkClick := None |};
  {| href := "mailto:nihalnihal8951@gmail.com"; label := "Email"; linkClick := None |}
].

Record MobileMenu := {
  mobileLinks : list (Link Action);
  mobileSocial : list (Link Action)
}.

Record View := {
  logo : Link Action;
  desktopLinks : list (Link Action);
  desktopSocial : list (Link Action);
  menuButton : Button Action;
  menuIcon : Icon;
  mobileMenu : option MobileMenu
}.

Definition Navigation (isOpen : State) : View :=
  {| logo := {| href := "/"; label := "Nihal HT"; linkClick := None |};
     desktopLinks :=
       map (fun item => {| href := itemHref item; label := itemLabel item;
                           linkClick := None |}) navItems;
     desktopSocial := socialLinks;
     menuButton := {| text := "Toggle menu"; variant := "ghost";
                      disabled := false;
                      onClick := Some (setIsOpen (negb isOpen)) |};
     menuIcon := if isOpen then X else Menu;
     mobileMenu :=
       if isOpen
       then Some {| mobileLinks :=
                      map (fun item => {| href := itemHref item;
                                          label := itemLabel item;
                                          linkClick := Some (setIsOpen false) |})
                          navItems;
                    mobileSocial := socialLinks |}
       else None |}.

(** The links of the mobile menu that are on screen. *)
Definition renderedMobileLinks (v : View) : list (Link Action) :=
  match mobileMenu v with
  | Some m => mobileLinks m
  | None => []
  end.

(** What the user can do: press the menu button, or follow the [i]-th
    link of the mobile menu when that menu is on screen. *)
Inductive UserEvent :=
| clickMenuButton
| clickMobileLink (i : nat).

Definition dispatch (e : UserEvent) (isOpen : State) : option State :=
  match e with
  | clickMenuButton =>
      Some (clickButton handle (menuButton (Navigation isOpen)) isOpen)
  | clickMobileLink i =>
      (fun l => clickLink handle l isOpen)
        <$> renderedMobileLinks (Navigation isOpen) !! i
  end.
End Nav.

(** ** Footer (src/components/footer.tsx) *)
Module Footer.
Import Widget.

Definition Action : Type := Empty_set.

Record View := {
  name : string;
  navLinks : list (Link Action);
  socialLinks : list (Link Action);
  copyright : string
}.

Definition Footer : View :=
  {| name := "Nihal HT";
     navLinks := [
       {| href := "/"; label := "Home"; linkClick := None |};
       {| href := "/contact"; label := "Contact"; linkClick := None |};
       {| href := "/blogs"; label := "Blogs"; linkClick := None |} ];
     socialLinks := [
       {| href := "https://github.com/Nihalht"; label := "GitHub"; linkClick := None |};
       {| href := "https://linkedin.com/in/nihal-h-t"; label := "LinkedIn"; linkClick := None |};
       {| href := "mailto:nihalnihal8951@gmail.com"; label := "Email"; linkClick := None |} ];
     copyright := "© 2025 Nihal HT. All rights reserved." |}.
End Footer.

(** ** HomePage *)
Module Home.
Import Widget.

Definition Action : Type := Empty_set.

(** [skills] is an object literal; [Object.entries] lists its string keys
    in insertion order, so it is kept as an association list. *)
Definition skills : list (string * list string) := [
  ("Programming Languages", ["Python"; "C"; "SQL"; "Solidity"]);
  ("Data Management", ["MySQL"; "PostgreSQL"; "MongoDB"; "NoSQL"]);
  ("AI & Machine Learning",
    ["TensorFlow"; "PyTorch"; "scikit-learn"; "Keras"; "OpenCV"; "NLP"]);
  ("Web Development", ["Django"; "FastAPI"; "RESTful APIs"]);
  ("Tools & Platforms", ["Git/GitHub"; "Jupyter"; "Streamlit"]);
  ("Blockchain", ["Smart Contracts"; "Web3.js"; "Ethereum"])
].

Record Project := {
  title : string;
  year : string;
  description : string;
  accuracy : string;
  icon : Icon
}.

Definition projects : list Project := [
  {| title := "AI & Blockchain-Based Student Performance Data Analysis";
     year := "2025";
     description := "Developed an analytics platform combining machine learning with blockchain security, achieving 92% accuracy in performance forecasting. Built a secure data pipeline with smart contracts for tamper-proof records.";
     accuracy := "92%";
     icon := Brain |};
  {| title := "Crop & Fertilizer Prediction Using AI & ML";
     year := "2024";
     description := "Created an agricultural system with 89% accuracy using Random Forest and XGBoost. Integrated weather API and soil data via Flask backend, tailoring predictions to specific crop requirements.";
     accuracy := "89%";
     icon := Database |};
  {| title := "Healthcare AI Diagnostic Assistant";
     year := "2024";
     description := "Developed a CNN-based model with 94% accuracy for medical image analysis using OpenCV. Created FastAPI RESTful API integrated with hospital systems; implemented secure authentication and HIPAA-compliant data handling.";
     accuracy := "94%";
     icon := Code |}
].

Record Experience := {
  company : string;
  location : string;
  role : string;
  expYear : string;
  expIcon : Icon
}.

Definition experience : list Experience := [
  {| company := "TechCiti Private Limited";
     location := "Bengaluru, India";
     role := "Software Development (AI/ML) Intern";
     expYear := "2024";
     expIcon := Briefcase |};
  {| company := "10 SECONDS, Remote (NICC)";
     location := "Remote";
     role := "Cyber Security Intern";
     expYear := "2022";
     expIcon := Briefcase |}
].

Record Education := {
  institution : string;
  degree : string;
  period : string;
  grade : string;
  university : option string
}.

Definition education : list Education := [
  {| institution := "Navkis College of Engineering, Hassan";
     degree := "Bachelor of Engineering in Artificial Intelligence & Data Science";
     period := "2021 – 2025";
     grade := "CGPA: 7.75";
     university := Some "VTU" |};
  {| institution := "Mahesh PU College, Hassan";
     degree := "12th Grade";
     period := "2021";
     grade := "72%";
     university := None |};
  {| institution := "SVM English High School, Hassan";
     degree := "10th Grade";
     period := "2019";
     grade := "80%";
     university := None |}
].

Record SkillCard := {
  skillKey : string;
  skillIcons : list Icon;
  skillBadges : list string
}.

Record ProjectCard := {
  projectKey : nat;
  projectIcon : Icon;
  projectYear : string;
  projectAccuracy : string;
  projectTitle : string;
  projectDescription : string
}.

Record ExperienceCard := {
  expKey : nat;
  expRole : string;
  expCompany : string;
  expLocation : string;
  expBadge : string
}.

Record EducationCard := {
  eduKey : nat;
  eduDegree : string;
  eduInstitution : string;
  eduPeriod : string;
  eduGrade : string
}.

Record View := {
  getInTouch : Link Action;
  downloadResume : Button Action;
  skillCards : list SkillCard;
  projectCards : list ProjectCard;
  experienceCards : list ExperienceCard;
  educationCards : list EducationCard;
  startConversation : Link Action;
  viewMyWork : Link Action
}.

(** The chain of [category === "..." && <Icon/>] tests in the card title. *)
Definition categoryIcons (category : string) : list Icon :=
  (if String.eqb category "Programming Languages" then [Code] else []) ++
  (if String.eqb category "Data Management" then [Database] else []) ++
  (if String.eqb category "AI & Machine Learning" then [Brain] else []) ++
  (if String.eqb category "Web Development" then [ExternalLink] else []) ++
  (if String.eqb category "Tools & Platforms" then [Award] else []) ++
  (if String.eqb category "Blockchain" then [Blocks] else []).

Definition HomePage : View :=
  {| getInTouch := {| href := "/contact"; label := "Get In Touch"; linkClick := None |};
     downloadResume := {| text := "Download Resume"; variant := "outline";
                          disabled := false; onClick := None |};
     skillCards :=
       map (fun '(category, skillList) =>
              {| skillKey := category;
                 skillIcons := categoryIcons category;
                 skillBadges := skillList |}) skills;
     projectCards :=
       imap (fun index project =>
               {| projectKey := index;
                  projectIcon := icon project;
                  projectYear := year project;
                  projectAccuracy := accuracy project ++ " Accuracy";
                  projectTitle := title project;
                  projectDescription := description project |}) projects;
     experienceCards :=
       imap (fun index exp =>
               {| expKey := index;
                  expRole := role exp;
                  expCompany := company exp;
                  expLocation := location exp;
                  expBadge := expYear exp |}) experience;
     educationCards :=
       imap (fun index edu =>
               {| eduKey := index;
                  eduDegree := degree edu;
                  eduInstitution := institution edu;
                  eduPeriod := period edu;
                  eduGrade := grade edu |}) education;
     startConversation := {| href := "/contact"; label := "Start a Conversation";
                             linkClick := None |};
     viewMyWork := {| href := "https://github.com/Nihalht"; label := "View My Work";
                      linkClick := None |} |}.
End Home.

(** ** ContactPage (src/components/navigation.tsx, second component) *)
Module Contact.
Import Widget.
Local Open Scope N_scope.

(** The three [useState] cells.  [formData] is a JavaScript object that
    [handleInputChange] updates under a computed key, hence a finite map
    from property names to values. *)
Record State := {
  formData : gmap string string;
  isSubmitting : bool;
  isSubmitted : bool
}.

Definition emptyForm : gmap string string :=
  <["name" := ""]> (<["email" := ""]> (<["subject" := ""]>
    (<["message" := ""]> ∅))).

Definition initial : State :=
  {| formData := emptyForm; isSubmitting := false; isSubmitted := false |}.

Definition setFormData (f : gmap string string -> gmap string string)
    (s : State) : State :=
  {| formData := f (formData s);
     isSubmitting := isSubmitting s;
     isSubmitted := isSubmitted s |}.

Definition setIsSubmitting (b : bool) (s : State) : State :=
  {| formData := formData s; isSubmitting := b; isSubmitted := isSubmitted s |}.

Definition setIsSubmitted (b : bool) (s : State) : State :=
  {| formData := formData s; isSubmitting := isSubmitting s; isSubmitted := b |}.

(** [const { name, value } = e.target;
     setFormData((prev) => ({ ...prev, [name]: value }))] *)
Definition handleInputChange (name value : string) (s : State) : State :=
  setFormData (fun prev => <[name := value]> prev) s.

(** *** Timers

    The page sets two timers, both from [handleSubmit]: the one whose
    firing resolves the awaited promise, and the one that resets the form.
    A pending timer records when it was set and for how long. *)
Inductive Callback := resumeSubmit | resetForm.

Record Timer := { setAt : N; delay : N; callback : Callback }.

Definition due (tm : Timer) : N := setAt tm + delay tm.

(** The mounted page: the clock (milliseconds since mount), the hook
    state, and the pending timers, earliest first. *)
Record World := { now : N; state : State; timers : list Timer }.

Definition mounted : World := {| now := 0; state := initial; timers := [] |}.

Definition setState (f : State -> State) (w : World) : World :=
  {| now := now w; state := f (state w); timers := timers w |}.

Definition setNow (t : N) (w : World) : World :=
  {| now := t; state := state w; timers := timers w |}.

(** Timers fire in the order of their due times; among equal due times,
    in the order in which they were set. *)
Fixpoint enqueue (tm : Timer) (q : list Timer) : list Timer :=
  match q with
  | [] => [tm]
  | u :: q' => if due u <=? due tm then u :: enqueue tm q' else tm :: q
  end.

Definition setTimeout (cb : Callback) (ms : N) (w : World) : World :=
  {| now := now w;
     state := state w;
     timers := enqueue {| setAt := now w; delay := ms; callback := cb |}
                       (timers w) |}.

(** [handleSubmit] up to its [await]; [e.preventDefault()] only stops the
    browser from navigating and changes nothing here. *)
Definition handleSubmit (w : World) : World :=
  setTimeout resumeSubmit 2000 (setState (setIsSubmitting true) w).

(** [handleSubmit] after its [await]: the firing of the first timer
    resolves the promise and the function resumes. *)
Definition handleSubmit_resumed (w : World) : World :=
  setTimeout resetForm 3000
    (setState (setIsSubmitted true) (setState (setIsSubmitting false) w)).

(** The callback of the second [setTimeout]. *)
Definition handleSubmit_reset (w : World) : World :=
  setState (setFormData (fun _ => emptyForm))
    (setState (setIsSubmitted false) w).

Definition runCallback (cb : Callback) (w : World) : World :=
  match cb with
  | resumeSubmit => handleSubmit_resumed w
  | resetForm => handleSubmit_reset w
  end.

(** The earliest pending timer fires: it leaves the queue, the clock is at
    its due time (or later, if it was overdue), and its callback runs. *)
Definition fireTimer (tm : Timer) (q : list Timer) (w : World) : World :=
  runCallback (callback tm)
    {| now := N.max (now w) (due tm); state := state w; timers := q |}.

Definition fire (w : World) : option (Timer * World) :=
  match timers w with
  | [] => None
  | tm :: q => Some (tm, fireTimer tm q w)
  end.

(** Firing [resumeSubmit] sets one more timer, so an upper bound on the
    number of firings still to come counts it twice. *)
Definition pendingWork (q : list Timer) : nat :=
  sum_list (map (fun tm => match callback tm with
                           | resumeSubmit => 2%nat
                           | resetForm => 1%nat
                           end) q).

Fixpoint advanceWith (fuel : nat) (t : N) (w : World) : list Timer * World :=
  match fuel with
  | O => ([], w)
  | S fuel' =>
      match timers w with
      | [] => ([], setNow (N.max (now w) t) w)
      | tm :: q =>
          if due tm <=? t
          then let '(fired, w') := advanceWith fuel' t (fireTimer tm q w) in
               (tm :: fired, w')
          else ([], setNow (N.max (now w) t) w)
      end
  end.

(** Let the clock run to [t]: every timer due by then fires, in order.
    The result is the list of timers that fired and the world at [t]. *)
Definition advance (t : N) (w : World) : list Timer * World :=
  advanceWith (S (pendingWork (timers w))) t w.

(** *** The view *)
Record Field := {
  fieldName : string;
  fieldType : string;
  fieldValue : string;
  placeholder : string;
  required : bool
}.

Record SubmitButton := {
  buttonDisabled : bool;
  buttonIcon : option Icon;
  buttonText : string
}.

Inductive Content :=
| SuccessMessage (heading text : string)
| Form (fields : list Field) (button : SubmitButton).

Record ContactInfo := {
  infoIcon : Icon;
  infoLabel : string;
  infoValue : string;
  infoHref : option string
}.

Definition contactInfo : list ContactInfo := [
  {| infoIcon := Mail; infoLabel := "Email";
     infoValue := "nihalnihal8951@gmail.com";
     infoHref := Some "mailto:nihalnihal8951@gmail.com" |};
  {| infoIcon := Phone; infoLabel := "Phone";
     infoValue := "+91 8951107072";
     infoHref := Some "tel:+918951107072" |};
  {| infoIcon := MapPin; infoLabel := "Location";
     infoValue := "Hassan, India";
     infoHref := None |};
  {| infoIcon := Github; infoLabel := "GitHub";
     infoValue := "github.com/Nihalht";
     infoHref := Some "https://github.com/Nihalht" |};
  {| infoIcon := Linkedin; infoLabel := "LinkedIn";
     infoValue := "linkedin.com/in/nihal-h-t";
     infoHref := Some "https://linkedin.com/in/nihal-h-t" |}
].

Definition availability : list (string * string) := [
  ("Monday - Friday", "9:00 AM - 6:00 PM IST");
  ("Saturday", "10:00 AM - 4:00 PM IST");
  ("Sunday", "Available for urgent projects")
].

Record InfoRow := {
  rowKey : nat;
  rowIcon : Icon;
  rowLabel : string;
  rowValue : string;
  rowLink : option (string * bool)
}.

Record View := {
  content : Content;
  infoRows : list InfoRow;
  scheduleRows : list (nat * string * string)
}.

(** [formData.name] and the like: a property read. *)
Definition property (o : gmap string string) (k : string) : string :=
  default "" (o !! k).

Definition ContactPage (s : State) : View :=
  {| content :=
       if isSubmitted s
       then SuccessMessage "Message Sent Successfully!"
              "Thank you for reaching out. I'll get back to you soon."
       else Form
              [ {| fieldName := "name"; fieldType := "text";
                   fieldValue := property (formData s) "name";
                   placeholder := "Your full name"; required := true |};
                {| fieldName := "email"; fieldType := "email";
                   fieldValue := property (formData s) "email";
                   placeholder := "your.email@example.com"; required := true |};
                {| fieldName := "subject"; fieldType := "text";
                   fieldValue := property (formData s) "subject";
                   placeholder := "What's this about?"; required := true |};
                {| fieldName := "message"; fieldType := "textarea";
                   fieldValue := property (formData s) "message";
                   placeholder := "Tell me about your project or how I can help...";
                   required := true |} ]
              {| buttonDisabled := isSubmitting s;
                 buttonIcon := if isSubmitting s then None else Some Send;
                 buttonText := if isSubmitting s then "Sending..."
                               else "Send Message" |};
     infoRows :=
       imap (fun index info =>
               {| rowKey := index;
                  rowIcon := infoIcon info;
                  rowLabel := infoLabel info;
                  rowValue := infoValue info;
                  rowLink := (fun href => (href, String.prefix "http" href))
                               <$> infoHref info |}) contactInfo;
     scheduleRows :=
       imap (fun index '(day, time) => (index, day, time)) availability |}.

(** *** What the user can do

    The user edits a field that is on screen, which calls
    [handleInputChange] with that field's [name] and the new value, or
    submits the form, which calls [handleSubmit]; a disabled submit button
    does not submit.  (The browser also refuses to submit while a
    [required] field is empty; leaving that out only allows more
    submissions.) *)
Inductive UserEvent :=
| edit (field value : string)
| submit.

Definition dispatch (e : UserEvent) (w : World) : option World :=
  match content (ContactPage (state w)), e with
  | Form fields button, edit field value =>
      if bool_decide (field ∈ map fieldName fields)
      then Some (setState (handleInputChange field value) w)
      else None
  | Form fields button, submit =>
      if buttonDisabled button then None else Some (handleSubmit w)
  | SuccessMessage _ _, _ => None
  end.

(** One step of the mounted page: a user event, the firing of the
    earliest timer, or time passing up to the next due time.  Timers fire
    on time here; a browser fires them no earlier than that and possibly
    later, so only what does not depend on the reading of the clock carries
    over to a late timer. *)
Inductive step : World -> World -> Prop :=
| step_user e w w' :
    dispatch e w = Some w' -> step w w'
| step_fire w tm w' :
    fire w = Some (tm, w') -> step w w'
| step_wait w t :
    now w <= t -> Forall (fun tm => t <= due tm) (timers w) ->
    step w (setNow t w).

Definition reachable (w : World) : Prop := rtc step mounted w.


(** The user keeps typing: a run of [handleInputChange] calls. *)
Definition typing (edits : list (string * string)) (w : World) : World :=
  foldl (fun w e => setState (handleInputChange e.1 e.2) w) w edits.

(** The three phases of the page: at rest, between the submission and
    the end of its delay, and showing the success message. *)
Inductive Phase (w : World) : Prop :=
| Idle :
    isSubmitting (state w) = false -> isSubmitted (state w) = false ->
    timers w = [] ->
    Phase w
| Sending t0 :
    isSubmitting (state w) = true -> isSubmitted (state w) = false ->
    timers w = [{| setAt := t0; delay := 2000; callback := resumeSubmit |}] ->
    t0 <= now w <= t0 + 2000 ->
    Phase w
| Sent t0 :
    isSubmitting (state w) = false -> isSubmitted (state w) = true ->
    timers w = [{| setAt := t0; delay := 3000; callback := resetForm |}] ->
    t0 <= now w <= t0 + 3000 ->
    Phase w.
(** Where the page is, [t] being the time at which a submission was
    accepted: its delay is running, its success message is showing, or at
    least 5000 ms have passed. *)
Definition SinceSubmit (t : N) (w : World) : Prop :=
  (timers w = [{| setAt := t; delay := 2000; callback := resumeSubmit |}] /\
   now w <= t + 2000) \/
  (timers w = [{| setAt := t + 2000; delay := 3000; callback := resetForm |}] /\
   now w <= t + 5000) \/
  t + 5000 <= now w.

(** The value shown by the input named [n], when the form is on screen. *)
Definition fieldValueOf (n : string) (v : View) : option string :=
  match content v with
  | Form fields _ =>
      fieldValue <$> List.find (fun f => String.eqb (fieldName f) n) fields
  | SuccessMessage _ _ => None
  end.
End Contact.

(** ** The five components side by side

    No component takes props, so the only inputs of a render are the hook
    state of the component itself and, for [BlogsPage], the host whose
    [Date] it calls. *)
Module App.
Record State := {
  navigation : Nav.State;
  contact : Contact.World
}.

Definition mounted : State :=
  {| navigation := Nav.initial; contact := Contact.mounted |}.

Record Screen := {
  nav : Nav.View;
  footer : Footer.View;
  home : Home.View;
  contactPage : Contact.View;
  blogs : Blogs.View
}.

Definition render (env : JSDate.Env) (a : State) : Screen :=
  {| nav := Nav.Navigation (navigation a);
     footer := Footer.Footer;
     home := Home.HomePage;
     contactPage := Contact.ContactPage (Contact.state (contact a));
     blogs := Blogs.BlogsPage env |}.

(** A step of the site is a step of one of the two components that have
    handlers; the other three have none. *)
Inductive step : State -> State -> Prop :=
| step_navigation a e s' :
    Nav.dispatch e (navigation a) = Some s' ->
    step a {| navigation := s'; contact := contact a |}
| step_contact a w' :
    Contact.step (contact a) w' ->
    step a {| navigation := navigation a; contact := w' |}.

Definition reachable (a : State) : Prop := rtc step mounted a.
End App.

(** * Properties *)

(** ** Blog posts *)

Section Partition.
Import Blogs.
Variable posts : list BlogPost.

Lemma featuredOf_spec post :
  post ∈ featuredOf posts ↔ post ∈ posts ∧ featured post = true.
Proof.
  unfold featuredOf. rewrite list_elem_of_filter.
  destruct (featured post); simpl; intuition congruence.
Qed.

Lemma recentOf_spec post :
  post ∈ recentOf posts ↔ post ∈ posts ∧ featured post = false.
Proof.
  unfold recentOf. rewrite list_elem_of_filter.
  destruct (featured post); simpl; intuition congruence.
Qed.

Lemma featuredOf_recentOf_disjoint post :
  post ∈ featuredOf posts → post ∈ recentOf posts → False.
Proof.
  rewrite featuredOf_spec, recentOf_spec. intros [_ H1] [_ H2]. congruence.
Qed.

Lemma featuredOf_sublist : featuredOf posts `sublist_of` posts.
Proof. apply sublist_filter. Qed.

Lemma recentOf_sublist : recentOf posts `sublist_of` posts.
Proof. apply sublist_filter. Qed.

Lemma featuredOf_recentOf_perm :
  (featuredOf posts ++ recentOf posts)%list ≡ₚ posts.
Proof. apply filter_app_complement. Qed.
End Partition.

Lemma blogPosts_ids_distinct : NoDup (map Blogs.id Blogs.blogPosts).
Proof. refine (bool_decide_unpack _ _). vm_compute. exact I. Qed.

Lemma blogPosts_NoDup : NoDup Blogs.blogPosts.
Proof. eapply NoDup_fmap_1. apply blogPosts_ids_distinct. Qed.

(** C8.  [featuredPosts] and [recentPosts] partition [blogPosts]: a post of
    [blogPosts] is in [featuredPosts] exactly when its [featured] flag is
    true and in [recentPosts] exactly when it is false, never in both; both
    lists are duplicate-free subsequences of [blogPosts] (the relative order
    is kept), and their concatenation is a permutation of [blogPosts] (for
    this array, [blogPosts] itself). *)
Theorem featuredPosts_recentPosts_partition :
  (∀ post, post ∈ Blogs.blogPosts →
     (post ∈ Blogs.featuredPosts ↔ Blogs.featured post = true) ∧
     (post ∈ Blogs.recentPosts ↔ Blogs.featured post = false) ∧
     (post ∈ Blogs.featuredPosts ∨ post ∈ Blogs.recentPosts) ∧
     ¬ (post ∈ Blogs.featuredPosts ∧ post ∈ Blogs.recentPosts)) ∧
  (∀ post, post ∈ Blogs.featuredPosts ∨ post ∈ Blogs.recentPosts →
     post ∈ Blogs.blogPosts) ∧
  Blogs.featuredPosts ## Blogs.recentPosts ∧
  NoDup (Blogs.featuredPosts ++ Blogs.recentPosts)%list ∧
  Blogs.featuredPosts `sublist_of` Blogs.blogPosts ∧
  Blogs.recentPosts `sublist_of` Blogs.blogPosts ∧
  (Blogs.featuredPosts ++ Blogs.recentPosts)%list ≡ₚ Blogs.blogPosts ∧
  (Blogs.featuredPosts ++ Blogs.recentPosts)%list = Blogs.blogPosts.
Proof.
  unfold Blogs.featuredPosts, Blogs.recentPosts.
  split; [|split; [|split; [|split; [|split; [|split; [|split]]]]]].
  - intros post Hin.
    rewrite featuredOf_spec, recentOf_spec.
    destruct (Blogs.featured post) eqn:E; intuition congruence.
  - intros post [H|H];
      [apply featuredOf_spec in H | apply recentOf_spec in H]; tauto.
  - intros post H1 H2. exact (featuredOf_recentOf_disjoint _ _ H1 H2).
  - rewrite featuredOf_recentOf_perm. apply blogPosts_NoDup.
  - apply featuredOf_sublist.
  - apply recentOf_sublist.
  - apply featuredOf_recentOf_perm.
  - vm_compute. reflexivity.
Qed.

Lemma featuredPosts_recentPosts_partition_witness :
  let post := {| Blogs.id := 3;
       Blogs.title := "Full-Stack Development with Django and React";
       Blogs.excerpt := "Learn how to build robust full-stack applications using Django for the backend and React for the frontend. Includes authentication, API design, and deployment strategies.";
       Blogs.category := "Web Development";
       Blogs.readTime := "15 min read";
       Blogs.publishDate := "2024-12-05";
       Blogs.tags := ["Django"; "React"; "Full-Stack"; "API Development"];
       Blogs.featured := false;
       Blogs.icon := Widget.Code |} in
  post ∈ Blogs.blogPosts ∧
  (post ∈ Blogs.recentPosts ↔ Blogs.featured post = false).
Proof.
  intros post.
  assert (Hin : post ∈ Blogs.blogPosts).
  { apply list_elem_of_In. vm_compute. auto. }
  split; [exact Hin|].
  exact (proj1 (proj2 (proj1 featuredPosts_recentPosts_partition post Hin))).
Defined.

(** ** Dates *)

Section HostTimeZone.
Import JSDate.
Local Open Scope Z_scope.

Lemma Day_LocalTime_west env t :
  t mod msPerDay = 0 → - msPerDay <= LocalTZA env t < 0 →
  Day (LocalTime env t) = Day t - 1.
Proof.
  unfold Day, LocalTime, msPerDay. intros Hmod Hoff.
  apply Z.div_exact in Hmod; [|lia].
  symmetry. apply Z.div_unique with (r := LocalTZA env t + 86400000); lia.
Qed.

Lemma Day_LocalTime_east env t :
  t mod msPerDay = 0 → 0 <= LocalTZA env t < msPerDay →
  Day (LocalTime env t) = Day t.
Proof.
  unfold Day, LocalTime, msPerDay. intros Hmod Hoff.
  apply Z.div_exact in Hmod; [|lia].
  symmetry. apply Z.div_unique with (r := LocalTZA env t); lia.
Qed.

(** A host behind UTC shows the day before the one that was written. *)
Lemma formatDate_west env s t :
  parse s = Some t → t mod msPerDay = 0 →
  - msPerDay <= LocalTZA env t < 0 →
  Blogs.formatDate env s = longDate (civilFromDays (Day t - 1)).
Proof.
  intros Hp Hmod Hoff. unfold Blogs.formatDate. rewrite Hp. simpl.
  now rewrite Day_LocalTime_west.
Qed.

(** A host on or ahead of UTC shows the day that was written. *)
Lemma formatDate_east env s t :
  parse s = Some t → t mod msPerDay = 0 →
  0 <= LocalTZA env t < msPerDay →
  Blogs.formatDate env s = longDate (civilFromDays (Day t)).
Proof.
  intros Hp Hmod Hoff. unfold Blogs.formatDate. rewrite Hp. simpl.
  now rewrite Day_LocalTime_east.
Qed.
End HostTimeZone.

Example formatDate_utc :
  Blogs.formatDate JSDate.UTC "2024-12-15" = "December 15, 2024".
Proof. vm_compute. reflexivity. Qed.

Example formatDate_west_of_utc (env : JSDate.Env) :
  (- JSDate.msPerDay <= JSDate.LocalTZA env 1734220800000 < 0)%Z →
  Blogs.formatDate env "2024-12-15" = "December 14, 2024".
Proof.
  intros H. erewrite formatDate_west; [| vm_compute; reflexivity | reflexivity | exact H].
  vm_compute. reflexivity.
Qed.

(** C6.  The dates that [BlogsPage] shows follow the time zone of the host:
    the post published on "2024-12-15" is dated December 15 on a host on
    UTC and December 14 on a host five hours behind it, and every other
    post is shifted by a day in the same way. *)
Theorem BlogsPage_dates_follow_host_time_zone :
  Blogs.formatDate JSDate.UTC "2024-12-15" = "December 15, 2024" ∧
  Blogs.formatDate JSDate.NewYorkWinter "2024-12-15" = "December 14, 2024" ∧
  map Blogs.cardDate
      (Blogs.featuredSection (Blogs.BlogsPage JSDate.UTC)
       ++ Blogs.recentSection (Blogs.BlogsPage JSDate.UTC))%list
    = ["December 15, 2024"; "December 10, 2024"; "December 5, 2024";
       "November 28, 2024"; "November 20, 2024"; "November 15, 2024"] ∧
  map Blogs.cardDate
      (Blogs.featuredSection (Blogs.BlogsPage JSDate.NewYorkWinter)
       ++ Blogs.recentSection (Blogs.BlogsPage JSDate.NewYorkWinter))%list
    = ["December 14, 2024"; "December 9, 2024"; "December 4, 2024";
       "November 27, 2024"; "November 19, 2024"; "November 14, 2024"].
Proof. repeat split; vm_compute; reflexivity. Qed.

Lemma BlogsPage_differs_between_hosts :
  Blogs.BlogsPage JSDate.NewYorkWinter ≠ Blogs.BlogsPage JSDate.UTC.
Proof.
  intros Heq.
  apply (f_equal (fun v => map Blogs.cardDate (Blogs.featuredSection v))) in Heq.
  vm_compute in Heq. discriminate Heq.
Qed.

(** ** BlogsPage buttons *)

Lemma Blogs_no_handler (a : Blogs.Action) : False.
Proof. destruct a. Qed.

(** C4.  [BlogsPage] renders five category buttons, "All", "AI/ML",
    "Web Development", "Blockchain" and "Data Science"; none of them has a
    click handler, the component has no state for a handler to change, and
    after any sequence of clicks on them the page renders the same view, in
    particular the same featured and recent posts. *)
Theorem category_buttons_inert (env : JSDate.Env)
    (clicks : list (Widget.Button Blogs.Action)) (s : Blogs.State) :
  Forall (fun b => b ∈ Blogs.categoryButtons (Blogs.BlogsPage env)) clicks →
  map Widget.text (Blogs.categoryButtons (Blogs.BlogsPage env))
    = ["All"; "AI/ML"; "Web Development"; "Blockchain"; "Data Science"] ∧
  Forall (fun b => Widget.onClick b = None) clicks ∧
  foldl (fun s b => Widget.clickButton Blogs.handle b s) s clicks = s ∧
  Blogs.render env
      (foldl (fun s b => Widget.clickButton Blogs.handle b s) s clicks)
    = Blogs.render env s ∧
  Blogs.featuredSection (Blogs.render env s)
    = map (Blogs.featuredCard env) Blogs.featuredPosts ∧
  Blogs.recentSection (Blogs.render env s)
    = map (Blogs.recentCard env) Blogs.recentPosts.
Proof.
  intros Hclicks.
  assert (Hnone : Forall (fun b : Widget.Button Blogs.Action =>
                            Widget.onClick b = None) clicks).
  { eapply Forall_impl; [exact Hclicks|]. intros b Hb.
    change (b ∈ map Blogs.categoryButton Blogs.categories) in Hb.
    apply list_elem_of_fmap in Hb as (c & -> & _). reflexivity. }
  repeat split; try reflexivity; try exact Hnone.
  clear Hclicks. induction Hnone as [|b bs Hb _ IH]; simpl; [reflexivity|].
  unfold Widget.clickButton at 2. rewrite Hb. exact IH.
Qed.

Lemma category_buttons_inert_witness :
  Forall (fun b => b ∈ Blogs.categoryButtons (Blogs.BlogsPage JSDate.UTC))
         [Blogs.categoryButton "AI/ML"; Blogs.categoryButton "Blockchain"] ∧
  Blogs.render JSDate.UTC
      (foldl (fun s b => Widget.clickButton Blogs.handle b s) tt
             [Blogs.categoryButton "AI/ML"; Blogs.categoryButton "Blockchain"])
    = Blogs.render JSDate.UTC tt.
Proof.
  assert (H : Forall (fun b => b ∈ Blogs.categoryButtons (Blogs.BlogsPage JSDate.UTC))
                [Blogs.categoryButton "AI/ML"; Blogs.categoryButton "Blockchain"]).
  { repeat constructor. }
  split; [exact H|].
  exact (proj1 (proj2 (proj2 (proj2
    (category_buttons_inert JSDate.UTC _ tt H))))).
Defined.

(** ** Navigation *)

(** C5.  [Navigation] has one state cell, the boolean [isOpen], initially
    false.  A click on the menu button replaces it by its negation, the
    mobile menu is in the view exactly when it is true, and a click on any
    link of the mobile menu sets it to false. *)
Theorem Navigation_menu (isOpen : Nav.State) :
  Nav.initial = false ∧
  Widget.clickButton Nav.handle (Nav.menuButton (Nav.Navigation isOpen)) isOpen
    = negb isOpen ∧
  Nav.dispatch Nav.clickMenuButton isOpen = Some (negb isOpen) ∧
  (is_Some (Nav.mobileMenu (Nav.Navigation isOpen)) ↔ isOpen = true) ∧
  (isOpen = true →
     map Widget.label (Nav.renderedMobileLinks (Nav.Navigation isOpen))
       = ["Home"; "Contact"; "Blogs"]) ∧
  (∀ l, l ∈ Nav.renderedMobileLinks (Nav.Navigation isOpen) →
     Widget.clickLink Nav.handle l isOpen = false) ∧
  (∀ i s', Nav.dispatch (Nav.clickMobileLink i) isOpen = Some s' →
     isOpen = true ∧ s' = false).
Proof.
  split; [reflexivity|]. split; [reflexivity|]. split; [reflexivity|].
  split.
  { destruct isOpen; simpl; split; intros H; try reflexivity; eauto.
    - destruct H as [m Hm]. discriminate Hm.
    - discriminate H. }
  split; [intros ->; reflexivity|].
  split.
  - intros l Hl. destruct isOpen; cbn [Nav.renderedMobileLinks Nav.Navigation
      Nav.mobileMenu Nav.mobileLinks] in Hl.
    + apply list_elem_of_fmap in Hl as (item & -> & _). reflexivity.
    + inversion Hl.
  - intros i s' H. destruct isOpen; simpl in H.
    + split; [reflexivity|].
      destruct i as [|[|[|i]]]; simpl in H; inversion H; reflexivity.
    + discriminate H.
Qed.

Lemma Navigation_menu_witness :
  Nav.dispatch (Nav.clickMobileLink 1) true = Some false ∧
  (true = true ∧ false = false).
Proof.
  assert (H : Nav.dispatch (Nav.clickMobileLink 1) true = Some false)
    by reflexivity.
  split; [exact H|].
  exact (proj2 (proj2 (proj2 (proj2 (proj2 (proj2
    (Navigation_menu true)))))) 1%nat false H).
Defined.

(** ** ContactPage: phases and timers *)

Section ContactPhases.
Import Contact.
Local Open Scope N_scope.

Lemma content_form s :
  isSubmitted s = false →
  ∃ fields button,
    content (ContactPage s) = Form fields button ∧
    map fieldName fields = ["name"; "email"; "subject"; "message"] ∧
    buttonDisabled button = isSubmitting s.
Proof. intros H. simpl. rewrite H. eauto. Qed.

Lemma content_success s :
  isSubmitted s = true →
  content (ContactPage s)
    = SuccessMessage "Message Sent Successfully!"
        "Thank you for reaching out. I'll get back to you soon.".
Proof. intros H. simpl. rewrite H. reflexivity. Qed.

Lemma dispatch_edit_inv field value w w' :
  dispatch (edit field value) w = Some w' →
  isSubmitted (state w) = false ∧
  field ∈ ["name"; "email"; "subject"; "message"] ∧
  w' = setState (handleInputChange field value) w.
Proof.
  unfold dispatch. simpl. destruct (isSubmitted (state w)); [discriminate|].
  case_bool_decide as Hin; [|discriminate].
  intros [= <-]. auto.
Qed.

Lemma dispatch_submit_inv w w' :
  dispatch submit w = Some w' →
  isSubmitted (state w) = false ∧ isSubmitting (state w) = false ∧
  w' = handleSubmit w.
Proof.
  unfold dispatch. simpl. destruct (isSubmitted (state w)); [discriminate|].
  simpl. destruct (isSubmitting (state w)); [discriminate|].
  intros [= <-]. auto.
Qed.

Lemma phase_step w w' : Phase w → step w w' → Phase w'.
Proof.
  intros HP Hs. destruct Hs as [e w w' Hd | w tm w' Hf | w t Hle Hall].
  - destruct e as [field value|].
    + apply dispatch_edit_inv in Hd as (_ & _ & ->).
      destruct HP as [H1 H2 H3 | t0 H1 H2 H3 H4 | t0 H1 H2 H3 H4];
        [apply Idle | apply (Sending _ t0) | apply (Sent _ t0)]; assumption.
    + apply dispatch_submit_inv in Hd as (Hs1 & Hs2 & ->).
      destruct HP as [H1 H2 H3 | t0 H1 H2 H3 H4 | t0 H1 H2 H3 H4];
        try congruence.
      apply (Sending _ (now w)); simpl; try assumption; try reflexivity.
      * rewrite H3. reflexivity.
      * lia.
  - unfold fire in Hf.
    destruct HP as [H1 H2 H3 | t0 H1 H2 H3 H4 | t0 H1 H2 H3 H4];
      rewrite H3 in Hf; [discriminate | |]; injection Hf as <- <-.
    + apply (Sent _ (N.max (now w) (t0 + 2000))); simpl;
        try reflexivity; unfold due; simpl; lia.
    + apply Idle; simpl; try assumption; reflexivity.
  - destruct HP as [H1 H2 H3 | t0 H1 H2 H3 H4 | t0 H1 H2 H3 H4].
    + apply Idle; assumption.
    + apply (Sending _ t0); try assumption. simpl.
      rewrite H3 in Hall. rewrite Forall_singleton in Hall.
      unfold due in Hall; simpl in Hall. lia.
    + apply (Sent _ t0); try assumption. simpl.
      rewrite H3 in Hall. rewrite Forall_singleton in Hall.
      unfold due in Hall; simpl in Hall. lia.
Qed.

Lemma reachable_phase w : reachable w → Phase w.
Proof.
  unfold reachable. intros H.
  refine (rtc_ind_r (fun w => Phase w) mounted _ _ w H).
  - apply Idle; reflexivity.
  - intros w1 w2 _ Hstep IH. exact (phase_step _ _ IH Hstep).
Qed.

(** *** Running the clock *)

Lemma advanceWith_idle fuel t w :
  timers w = [] →
  advanceWith (S fuel) t w = ([], setNow (N.max (now w) t) w).
Proof. intros H. simpl. rewrite H. reflexivity. Qed.

Lemma advanceWith_early fuel t w tm q :
  timers w = tm :: q → t < due tm →
  advanceWith (S fuel) t w = ([], setNow (N.max (now w) t) w).
Proof.
  intros H Hlt. simpl. rewrite H.
  destruct (N.leb_spec (due tm) t); [lia | reflexivity].
Qed.

Lemma advanceWith_fire fuel t w tm q :
  timers w = tm :: q → due tm <= t →
  advanceWith (S fuel) t w
    = (tm :: (advanceWith fuel t (fireTimer tm q w)).1,
       (advanceWith fuel t (fireTimer tm q w)).2).
Proof.
  intros H Hle. simpl. rewrite H.
  destruct (N.leb_spec (due tm) t); [|lia].
  destruct (advanceWith fuel t (fireTimer tm q w)); reflexivity.
Qed.

Lemma pendingWork_cons tm q :
  pendingWork (tm :: q) = (pendingWork [tm] + pendingWork q)%nat.
Proof. unfold pendingWork. simpl. lia. Qed.

Lemma pendingWork_enqueue tm q :
  pendingWork (enqueue tm q) = (pendingWork [tm] + pendingWork q)%nat.
Proof.
  induction q as [|u q IH]; simpl.
  - unfold pendingWork. simpl. lia.
  - destruct (due u <=? due tm); [|apply pendingWork_cons].
    rewrite (pendingWork_cons u (enqueue tm q)), IH, (pendingWork_cons u q).
    lia.
Qed.

Lemma pendingWork_fireTimer tm q w :
  timers w = tm :: q →
  (pendingWork (timers (fireTimer tm q w)) < pendingWork (timers w))%nat.
Proof.
  intros H. rewrite H. unfold fireTimer.
  rewrite (pendingWork_cons tm q).
  destruct (callback tm) eqn:E; simpl.
  - rewrite pendingWork_enqueue. unfold pendingWork at 1 3. simpl.
    rewrite E. lia.
  - unfold pendingWork at 2. simpl. rewrite E. lia.
Qed.

(** The fuel of [advance] is enough: the run stops because no pending
    timer is due, with the clock at the requested time. *)
Lemma advanceWith_complete fuel t w :
  (pendingWork (timers w) < fuel)%nat →
  match timers (advanceWith fuel t w).2 with
  | [] => True
  | tm :: _ => t < due tm
  end ∧ t <= now (advanceWith fuel t w).2.
Proof.
  revert w. induction fuel as [|fuel IH]; intros w Hfuel; [lia|].
  destruct (timers w) as [|tm q] eqn:Hq.
  - rewrite advanceWith_idle by assumption.
    cbn [snd setNow now timers]. rewrite Hq. split; [exact I | lia].
  - destruct (N.leb_spec (due tm) t) as [Hle|Hlt].
    + rewrite (advanceWith_fire _ _ _ _ _ Hq Hle). cbn [snd].
      apply IH. pose proof (pendingWork_fireTimer tm q w Hq) as Hlt.
      rewrite Hq in Hlt. lia.
    + rewrite (advanceWith_early _ _ _ _ _ Hq Hlt).
      cbn [snd setNow now timers]. rewrite Hq. split; [assumption | lia].
Qed.

Lemma advance_complete t w :
  match timers (advance t w).2 with
  | [] => True
  | tm :: _ => t < due tm
  end ∧ t <= now (advance t w).2.
Proof. apply advanceWith_complete. lia. Qed.

Lemma advance_idle t w :
  timers w = [] → advance t w = ([], setNow (N.max (now w) t) w).
Proof. intros H. unfold advance. now apply advanceWith_idle. Qed.

Lemma advance_early t w tm q :
  timers w = tm :: q → t < due tm →
  advance t w = ([], setNow (N.max (now w) t) w).
Proof. intros H Hlt. unfold advance. now apply (advanceWith_early _ _ _ tm q). Qed.

(** The reset timer alone in the queue. *)
Lemma advance_reset t w t0 :
  timers w = [{| setAt := t0; delay := 3000; callback := resetForm |}] →
  t0 + 3000 <= t →
  advance t w
    = ([{| setAt := t0; delay := 3000; callback := resetForm |}],
       {| now := N.max (N.max (now w) (t0 + 3000)) t;
          state := setFormData (fun _ => emptyForm)
                     (setIsSubmitted false (state w));
          timers := [] |}).
Proof.
  intros H Hle. unfold advance. rewrite H.
  change (pendingWork _) with 1%nat.
  rewrite (advanceWith_fire _ _ _ _ _ H) by (unfold due; simpl; lia).
  rewrite advanceWith_idle by reflexivity. reflexivity.
Qed.

(** The delay timer alone in the queue, run to a time before the reset
    timer that its firing sets. *)
Lemma advance_resume t w t0 :
  timers w = [{| setAt := t0; delay := 2000; callback := resumeSubmit |}] →
  now w <= t0 + 2000 → t0 + 2000 <= t < t0 + 5000 →
  advance t w
    = ([{| setAt := t0; delay := 2000; callback := resumeSubmit |}],
       {| now := t;
          state := setIsSubmitted true (setIsSubmitting false (state w));
          timers := [{| setAt := t0 + 2000; delay := 3000;
                        callback := resetForm |}] |}).
Proof.
  intros H Hnow Ht. unfold advance. rewrite H.
  change (pendingWork _) with 2%nat.
  rewrite (advanceWith_fire _ _ _ _ _ H) by (unfold due; simpl; lia).
  assert (Hmax : N.max (now w) (t0 + 2000) = t0 + 2000) by lia.
  erewrite advanceWith_early;
    [| unfold fireTimer; simpl; unfold due; simpl; rewrite Hmax; reflexivity
     | unfold due; simpl; lia ].
  unfold fireTimer, due. simpl. rewrite Hmax.
  unfold setNow. simpl. f_equal. f_equal. lia.
Qed.

Lemma typing_frame edits w :
  now (typing edits w) = now w ∧
  timers (typing edits w) = timers w ∧
  isSubmitting (state (typing edits w)) = isSubmitting (state w) ∧
  isSubmitted (state (typing edits w)) = isSubmitted (state w).
Proof.
  unfold typing. revert w.
  induction edits as [|e edits IH]; intros w; simpl; [auto|].
  destruct (IH (setState (handleInputChange e.1 e.2) w)) as (-> & -> & -> & ->).
  auto.
Qed.
End ContactPhases.

(** ** ContactPage: the claims *)

Section ContactClaims.
Import Contact.
Local Open Scope N_scope.

Lemma reachable_step w w' : reachable w → step w w' → reachable w'.
Proof. intros H Hs. eapply rtc_r; eassumption. Qed.

Lemma reachable_submitted : reachable (handleSubmit mounted).
Proof.
  apply (reachable_step mounted); [apply rtc_refl|].
  apply (step_user submit). reflexivity.
Qed.

Lemma emptyForm_fields :
  Forall (fun k => emptyForm !! k = Some "")
         ["name"; "email"; "subject"; "message"].
Proof. repeat constructor. Qed.

(** C1.  Every submission of the contact form succeeds.  When the user
    submits from a reachable state of the page, [handleSubmit] sets
    [isSubmitting] and leaves one pending timer of 2000 ms; whatever the
    user types meanwhile, once the clock has run those 2000 ms that timer
    has fired, [isSubmitting] is false, [isSubmitted] is true and the view
    shows "Message Sent Successfully!".  The part of [handleSubmit] that
    runs after the delay ends in that state from any state: it has no
    other outcome. *)
Theorem submission_always_succeeds
    (w w1 : World) (edits : list (string * string)) :
  reachable w → dispatch submit w = Some w1 →
  w1 = handleSubmit w ∧
  isSubmitting (state w1) = true ∧
  timers w1 = [{| setAt := now w; delay := 2000; callback := resumeSubmit |}] ∧
  (advance (now w + 2000) (typing edits w1)).1
    = [{| setAt := now w; delay := 2000; callback := resumeSubmit |}] ∧
  now (advance (now w + 2000) (typing edits w1)).2 = now w + 2000 ∧
  isSubmitting (state (advance (now w + 2000) (typing edits w1)).2) = false ∧
  isSubmitted (state (advance (now w + 2000) (typing edits w1)).2) = true ∧
  content (ContactPage (state (advance (now w + 2000) (typing edits w1)).2))
    = SuccessMessage "Message Sent Successfully!"
        "Thank you for reaching out. I'll get back to you soon." ∧
  (∀ v, isSubmitting (state (handleSubmit_resumed v)) = false ∧
        isSubmitted (state (handleSubmit_resumed v)) = true).
Proof.
  intros Hreach Hd.
  apply dispatch_submit_inv in Hd as (Hs1 & Hs2 & ->).
  assert (Hq : timers w = []).
  { destruct (reachable_phase w Hreach) as [_ _ H | t0 H | t0 _ H];
      [exact H | congruence | congruence]. }
  assert (Hq1 : timers (handleSubmit w)
                = [{| setAt := now w; delay := 2000; callback := resumeSubmit |}]).
  { simpl. rewrite Hq. reflexivity. }
  destruct (typing_frame edits (handleSubmit w)) as (Hn & Ht & _ & _).
  rewrite Hq1 in Ht.
  rewrite (advance_resume _ _ (now w) Ht) by (rewrite ?Hn; simpl; lia).
  repeat split; try reflexivity; assumption.
Qed.

Lemma submission_always_succeeds_witness :
  reachable mounted ∧
  dispatch submit mounted = Some (handleSubmit mounted) ∧
  isSubmitted
    (state (advance (now mounted + 2000)
              (typing [("name", "Ann")] (handleSubmit mounted))).2) = true.
Proof.
  assert (Hr : reachable mounted) by apply rtc_refl.
  assert (Hd : dispatch submit mounted = Some (handleSubmit mounted))
    by reflexivity.
  split; [exact Hr|]. split; [exact Hd|].
  exact (proj1 (proj2 (proj2 (proj2 (proj2 (proj2 (proj2
    (submission_always_succeeds mounted (handleSubmit mounted)
       [("name", "Ann")] Hr Hd)))))))).
Defined.

(** C2.  When a submission completes (the delay timer fires), exactly
    one timer is pending: the reset timer, set at that moment for 3000 ms.
    It does not fire before 3000 ms have passed; run to any later time, the
    clock has fired it once and nothing else, and then [isSubmitted] is
    false, [formData] is the empty form (the four fields "name", "email",
    "subject" and "message" are the empty string), and no timer is left to
    fire again. *)
Theorem reset_timer_fires_once (w w' : World) (tm : Timer) :
  reachable w → fire w = Some (tm, w') → callback tm = resumeSubmit →
  timers w' = [{| setAt := now w'; delay := 3000; callback := resetForm |}] ∧
  (∀ t, t < now w' + 3000 →
     (advance t w').1 = [] ∧
     isSubmitted (state (advance t w').2) = true) ∧
  (∀ t, now w' + 3000 <= t →
     (advance t w').1
       = [{| setAt := now w'; delay := 3000; callback := resetForm |}] ∧
     timers (advance t w').2 = [] ∧
     isSubmitted (state (advance t w').2) = false ∧
     formData (state (advance t w').2) = emptyForm ∧
     Forall (fun k => formData (state (advance t w').2) !! k = Some "")
            ["name"; "email"; "subject"; "message"] ∧
     ∀ t', (advance t' (advance t w').2).1 = []).
Proof.
  intros Hreach Hf Hcb.
  assert (HP : Phase w) by exact (reachable_phase w Hreach).
  unfold fire in Hf.
  destruct HP as [_ _ H3 | t0 H1 H2 H3 H4 | t0 _ _ H3 _];
    rewrite H3 in Hf; [discriminate | | ]; injection Hf as <- <-;
    [| discriminate Hcb].
  set (w' := fireTimer _ [] w).
  assert (Hq : timers w'
               = [{| setAt := now w'; delay := 3000; callback := resetForm |}])
    by reflexivity.
  assert (Hs : isSubmitted (state w') = true) by reflexivity.
  clearbody w'.
  split; [exact Hq|]. split.
  - intros t Hlt.
    rewrite (advance_early t w' _ [] Hq) by (unfold due; simpl; lia).
    split; [reflexivity | exact Hs].
  - intros t Hle.
    rewrite (advance_reset t w' (now w') Hq Hle). cbn [fst snd].
    split; [reflexivity|]. split; [reflexivity|]. split; [reflexivity|].
    split; [reflexivity|]. split; [exact emptyForm_fields|].
    intros t'. rewrite advance_idle by reflexivity. reflexivity.
Qed.

Lemma reset_timer_fires_once_witness :
  reachable (handleSubmit mounted) ∧
  fire (handleSubmit mounted)
    = Some ({| setAt := 0; delay := 2000; callback := resumeSubmit |},
            handleSubmit_resumed (setNow 2000 (setState (setIsSubmitting true) mounted))) ∧
  timers (handleSubmit_resumed
            (setNow 2000 (setState (setIsSubmitting true) mounted)))
    = [{| setAt := 2000; delay := 3000; callback := resetForm |}].
Proof.
  assert (Hf : fire (handleSubmit mounted)
    = Some ({| setAt := 0; delay := 2000; callback := resumeSubmit |},
            handleSubmit_resumed
              (setNow 2000 (setState (setIsSubmitting true) mounted))))
    by reflexivity.
  split; [exact reachable_submitted|]. split; [exact Hf|].
  exact (proj1 (reset_timer_fires_once _ _ _ reachable_submitted Hf eq_refl)).
Defined.

(** C9.  [handleInputChange] with target name [n] and value [v] sets
    property [n] of [formData] to [v], leaves every other property as it
    was, and leaves [isSubmitting] and [isSubmitted] as they were.  For the
    four fields of the form, an edit on screen is that call: the field then
    reads [v], and neither the clock nor the timers change. *)
Theorem handleInputChange_frame (s : State) (n v : string) :
  formData (handleInputChange n v s) !! n = Some v ∧
  (∀ m, m ≠ n →
     formData (handleInputChange n v s) !! m = formData s !! m) ∧
  isSubmitting (handleInputChange n v s) = isSubmitting s ∧
  isSubmitted (handleInputChange n v s) = isSubmitted s ∧
  (n ∈ ["name"; "email"; "subject"; "message"] →
   ∀ w, state w = s → isSubmitted s = false →
     dispatch (edit n v) w = Some (setState (handleInputChange n v) w) ∧
     property (formData (handleInputChange n v s)) n = v ∧
     now (setState (handleInputChange n v) w) = now w ∧
     timers (setState (handleInputChange n v) w) = timers w).
Proof.
  split; [apply lookup_insert_eq|].
  split; [intros m Hm; apply lookup_insert_ne; congruence|].
  split; [reflexivity|]. split; [reflexivity|].
  intros Hn w <- Hsub.
  split; [|split; [|split; reflexivity]].
  - unfold dispatch. simpl. rewrite Hsub.
    rewrite bool_decide_eq_true_2 by exact Hn. reflexivity.
  - unfold property. simpl. rewrite lookup_insert_eq. reflexivity.
Qed.

Lemma handleInputChange_frame_witness :
  "email" ≠ "name" ∧
  formData (handleInputChange "name" "Ann" initial) !! "email"
    = formData initial !! "email".
Proof.
  assert (H : "email" ≠ "name") by discriminate.
  split; [exact H|].
  exact (proj1 (proj2 (handleInputChange_frame initial "name" "Ann")) "email" H).
Defined.

(** C10.  In every state of the contact page reachable from its mount,
    [isSubmitting] and [isSubmitted] are not both true.  While
    [isSubmitting] is true the form is on screen with its submit button
    disabled, a submission is refused, and the one pending timer is the
    delay of the submission in flight; a submission is only accepted when
    no timer is pending at all. *)
Theorem never_submitting_and_submitted (w : World) :
  reachable w →
  ¬ (isSubmitting (state w) = true ∧ isSubmitted (state w) = true) ∧
  (isSubmitting (state w) = true →
     (∃ fields button,
        content (ContactPage (state w)) = Form fields button ∧
        buttonDisabled button = true) ∧
     dispatch submit w = None ∧
     ∃ t0, timers w = [{| setAt := t0; delay := 2000;
                          callback := resumeSubmit |}] ∧
           now w <= t0 + 2000) ∧
  (∀ w1, dispatch submit w = Some w1 →
     timers w = [] ∧ isSubmitting (state w) = false).
Proof.
  intros Hreach. pose proof (reachable_phase w Hreach) as HP.
  split; [|split].
  - intros [H1 H2].
    destruct HP as [H _ _ | t0 _ H _ _ | t0 H _ _ _]; congruence.
  - intros Hsub.
    destruct HP as [H _ _ | t0 H1 H2 H3 H4 | t0 H _ _ _]; try congruence.
    split; [|split].
    + destruct (content_form _ H2) as (fields & button & Hc & _ & Hb).
      exists fields, button. split; [exact Hc | congruence].
    + unfold dispatch. simpl. rewrite H2. simpl. rewrite H1. reflexivity.
    + exists t0. split; [exact H3 | lia].
  - intros w1 Hd. apply dispatch_submit_inv in Hd as (Hs1 & Hs2 & _).
    split; [|exact Hs2].
    destruct HP as [_ _ H | t0 H _ _ _ | t0 _ H _ _]; congruence.
Qed.

Lemma never_submitting_and_submitted_witness :
  reachable (handleSubmit mounted) ∧
  isSubmitting (state (handleSubmit mounted)) = true ∧
  dispatch submit (handleSubmit mounted) = None.
Proof.
  split; [exact reachable_submitted|]. split; [reflexivity|].
  exact (proj1 (proj2 (proj1 (proj2
    (never_submitting_and_submitted _ reachable_submitted)) eq_refl))).
Defined.
End ContactClaims.

Section SiteClaims.
Import Contact.
Local Open Scope N_scope.






(** C7.  No component takes props.  What [Footer], [HomePage] and
    [BlogsPage] render does not depend on the state of the site; a step of
    [Navigation] leaves the contact page and its view as they were, and a
    step of the contact page leaves [Navigation] and its view as they
    were; the view of [Navigation] is a function of its own [isOpen], the
    view of the contact page a function of its own three cells, and the
    whole screen a function of these two. *)
Theorem components_are_independent
    (env : JSDate.Env) (a a' : App.State) :
  App.step a a' →
  App.footer (App.render env a') = Footer.Footer ∧
  App.home (App.render env a') = Home.HomePage ∧
  App.blogs (App.render env a') = Blogs.BlogsPage env ∧
  ((App.contact a' = App.contact a ∧
    App.contactPage (App.render env a') = App.contactPage (App.render env a))
   ∨
   (App.navigation a' = App.navigation a ∧
    App.nav (App.render env a') = App.nav (App.render env a))) ∧
  (∀ b, App.navigation b = App.navigation a →
        App.nav (App.render env b) = App.nav (App.render env a)) ∧
  (∀ b, state (App.contact b) = state (App.contact a) →
        App.contactPage (App.render env b)
          = App.contactPage (App.render env a)) ∧
  (∀ b, App.navigation b = App.navigation a →
        state (App.contact b) = state (App.contact a) →
        App.render env b = App.render env a).
Proof.
  intros Hstep.
  split; [reflexivity|]. split; [reflexivity|]. split; [reflexivity|].
  split; [destruct Hstep; [left | right]; split; reflexivity|].
  split; [|split].
  - intros b Hb. simpl. rewrite Hb. reflexivity.
  - intros b Hb. unfold App.render, App.contactPage. rewrite Hb. reflexivity.
  - intros b Hn Hc. unfold App.render. rewrite Hn, Hc. reflexivity.
Qed.

Lemma components_are_independent_witness :
  let a' := {| App.navigation := true; App.contact := mounted |} in
  App.step App.mounted a' ∧
  App.contactPage (App.render JSDate.UTC a')
    = App.contactPage (App.render JSDate.UTC App.mounted).
Proof.
  intros a'.
  assert (Hs : App.step App.mounted a').
  { apply (App.step_navigation App.mounted Nav.clickMenuButton true).
    reflexivity. }
  split; [exact Hs|].
  destruct (proj1 (proj2 (proj2 (proj2
    (components_are_independent JSDate.UTC App.mounted a' Hs)))))
    as [[_ H] | [Hn _]].
  - exact H.
  - discriminate Hn.
Defined.
End SiteClaims.

(** ** formatDate on every date *)

Section DateExtras.
Import JSDate.
Local Open Scope Z_scope.

Lemma civil_roundtrip_core yoe era doy :
  0 <= yoe <= 399 -> 0 <= doy <= 365 ->
  (doy = 365 -> (yoe + 1) mod 4 = 0 /\ ((yoe + 1) mod 100 <> 0 \/ yoe = 399)) ->
  (era * 146097 + (yoe * 365 + yoe / 4 - yoe / 100 + doy)) / 146097 = era /\
  ((yoe * 365 + yoe / 4 - yoe / 100 + doy)
   - (yoe * 365 + yoe / 4 - yoe / 100 + doy) / 1460
   + (yoe * 365 + yoe / 4 - yoe / 100 + doy) / 36524
   - (yoe * 365 + yoe / 4 - yoe / 100 + doy) / 146096) / 365 = yoe.
Proof.
  intros Hy Hd Hleap.
  split; Z.to_euclidean_division_equations; lia.
Qed.

Lemma isLeapYear_spec y :
  isLeapYear y = true <-> (y mod 4 = 0 /\ y mod 100 <> 0) \/ y mod 400 = 0.
Proof.
  unfold isLeapYear.
  rewrite orb_true_iff, andb_true_iff, negb_true_iff, !Z.eqb_eq, Z.eqb_neq.
  reflexivity.
Qed.

Lemma month_roundtrip y m d :
  1 <= m <= 12 -> 1 <= d <= daysInMonth y m ->
  let mp := if 2 <? m then m - 3 else m + 9 in
  let doy := (153 * mp + 2) / 5 + d - 1 in
  0 <= doy <= 365 /\
  (doy = 365 -> m = 2 /\ d = 29) /\
  (5 * doy + 2) / 153 = mp /\
  doy - (153 * mp + 2) / 5 + 1 = d.
Proof.
  intros Hm Hd.
  assert (Hd' : 1 <= d <= 31 /\ (m = 2 -> d <= 29) /\
                (m = 4 \/ m = 6 \/ m = 9 \/ m = 11 -> d <= 30)).
  { unfold daysInMonth in Hd.
    destruct (Z.eqb_spec m 2); [destruct (isLeapYear y); lia|].
    destruct (Z.eqb_spec m 4); [simpl in Hd; lia|].
    destruct (Z.eqb_spec m 6); [simpl in Hd; lia|].
    destruct (Z.eqb_spec m 9); [simpl in Hd; lia|].
    destruct (Z.eqb_spec m 11); [simpl in Hd; lia|].
    simpl in Hd. lia. }
  clear Hd. destruct Hd' as (H31 & H29 & H30).
  assert (Hcases : m = 1 \/ m = 2 \/ m = 3 \/ m = 4 \/ m = 5 \/ m = 6 \/
                   m = 7 \/ m = 8 \/ m = 9 \/ m = 10 \/ m = 11 \/ m = 12) by lia.
  repeat (destruct Hcases as [-> | Hcases]); [ .. | subst m];
    cbv zeta; simpl;
    (split; [|split; [|split]]); Z.to_euclidean_division_equations; lia.
Qed.

(** The two calendar conversions are inverse on every valid date. *)
Lemma civilFromDays_daysFromCivil y m d :
  1 <= m <= 12 -> 1 <= d <= daysInMonth y m ->
  civilFromDays (daysFromCivil y m d) = (y, m, d).
Proof.
  intros Hm Hd.
  destruct (month_roundtrip y m d Hm Hd) as (Hdoy & H365 & Hmp & Hday).
  cbv zeta in Hdoy, H365, Hmp, Hday.
  unfold civilFromDays, daysFromCivil.
  set (mp := if 2 <? m then m - 3 else m + 9) in *.
  set (y' := if m <=? 2 then y - 1 else y).
  set (era := y' / 400).
  set (yoe := y' - era * 400).
  set (doy := (153 * mp + 2) / 5 + d - 1) in *.
  assert (Hyoe : 0 <= yoe <= 399).
  { subst yoe era. Z.to_euclidean_division_equations. lia. }
  assert (Hleap : doy = 365 ->
            (yoe + 1) mod 4 = 0 /\ ((yoe + 1) mod 100 <> 0 \/ yoe = 399)).
  { intros E. destruct (H365 E) as [-> ->].
    assert (Hl : isLeapYear y = true).
    { unfold daysInMonth in Hd. simpl in Hd.
      destruct (isLeapYear y); [reflexivity | lia]. }
    apply isLeapYear_spec in Hl.
    subst yoe era y'. change (2 <=? 2) with true. cbv iota.
    Z.to_euclidean_division_equations. lia. }
  destruct (civil_roundtrip_core yoe era doy Hyoe Hdoy Hleap) as [Hera Hy].
  replace (era * 146097 + (yoe * 365 + yoe / 4 - yoe / 100 + doy)
           - 719468 + 719468)
    with (era * 146097 + (yoe * 365 + yoe / 4 - yoe / 100 + doy)) by lia.
  rewrite Hera.
  replace (era * 146097 + (yoe * 365 + yoe / 4 - yoe / 100 + doy)
           - era * 146097)
    with (yoe * 365 + yoe / 4 - yoe / 100 + doy) by lia.
  rewrite Hy.
  replace (yoe * 365 + yoe / 4 - yoe / 100 + doy
           - (365 * yoe + yoe / 4 - yoe / 100)) with doy by lia.
  rewrite Hmp, Hday.
  assert (Hmonth : (if mp <? 10 then mp + 3 else mp - 9) = m).
  { subst mp. destruct (Z.ltb_spec 2 m).
    - destruct (Z.ltb_spec (m - 3) 10); lia.
    - destruct (Z.ltb_spec (m + 9) 10); lia. }
  rewrite Hmonth.
  f_equal. f_equal.
  subst yoe y'. destruct (Z.leb_spec m 2); lia.
Qed.

Lemma digit_digitChar k : 0 <= k <= 9 -> digit (digitChar k) = Some k.
Proof.
  intros Hk.
  assert (Hc : k = 0 \/ k = 1 \/ k = 2 \/ k = 3 \/ k = 4 \/ k = 5 \/
               k = 6 \/ k = 7 \/ k = 8 \/ k = 9) by lia.
  repeat (destruct Hc as [-> | Hc]); [ .. | subst k]; reflexivity.
Qed.

Lemma parse_isoDate y m d :
  0 <= y <= 9999 -> 1 <= m <= 12 -> 1 <= d <= daysInMonth y m ->
  parse (isoDate y m d) = Some (daysFromCivil y m d * msPerDay).
Proof.
  intros Hy Hm Hd.
  assert (Hd31 : d <= 31).
  { unfold daysInMonth in Hd.
    destruct (m =? 2); [destruct (isLeapYear y); lia|].
    destruct ((m =? 4) || (m =? 6) || (m =? 9) || (m =? 11)); lia. }
  unfold parse, isoDate. rewrite list_ascii_of_string_of_list_ascii.
  cbn [digits].
  rewrite !digit_digitChar by (Z.to_euclidean_division_equations; lia).
  replace (10 * (10 * (10 * (10 * 0 + y / 1000) + y / 100 mod 10)
                 + y / 10 mod 10) + y mod 10) with y
    by (Z.to_euclidean_division_equations; lia).
  replace (10 * (10 * 0 + m / 10) + m mod 10) with m
    by (Z.to_euclidean_division_equations; lia).
  replace (10 * (10 * 0 + d / 10) + d mod 10) with d
    by (Z.to_euclidean_division_equations; lia).
  destruct (Z.leb_spec 1 m); [|lia]. destruct (Z.leb_spec m 12); [|lia].
  destruct (Z.leb_spec 1 d); [|lia].
  destruct (Z.leb_spec d (daysInMonth y m)); [|lia].
  reflexivity.
Qed.

Lemma daysFromCivil_dayBefore y m d :
  1 <= m <= 12 -> 1 <= d <= daysInMonth y m ->
  let '(y', m', d') := dayBefore (y, m, d) in
  daysFromCivil y m d - 1 = daysFromCivil y' m' d' /\
  1 <= m' <= 12 /\ 1 <= d' <= daysInMonth y' m'.
Proof.
  intros Hm Hd. unfold dayBefore.
  destruct (Z.ltb_spec 1 d) as [Hd1|Hd1].
  { split; [unfold daysFromCivil; lia | lia]. }
  assert (d = 1) as -> by lia. clear Hd Hd1.
  destruct (Z.ltb_spec 1 m) as [Hm1|Hm1].
  - assert (Hc : m = 2 \/ m = 3 \/ m = 4 \/ m = 5 \/ m = 6 \/ m = 7 \/
                 m = 8 \/ m = 9 \/ m = 10 \/ m = 11 \/ m = 12) by lia.
    repeat (destruct Hc as [-> | Hc]); [ .. | subst m];
      unfold daysFromCivil, daysInMonth; simpl;
      try (split; [Z.to_euclidean_division_equations; lia | lia]).
    pose proof (isLeapYear_spec y) as Hl.
    destruct (isLeapYear y).
    + split; [|lia]. destruct (proj1 Hl eq_refl);
        Z.to_euclidean_division_equations; lia.
    + split; [|lia].
      assert (~ ((y mod 4 = 0 /\ y mod 100 <> 0) \/ y mod 400 = 0))
        by (intros H; apply Hl in H; discriminate).
      Z.to_euclidean_division_equations; lia.
  - assert (m = 1) as -> by lia.
    unfold daysFromCivil, daysInMonth. simpl.
    split; [Z.to_euclidean_division_equations; lia | lia].
Qed.

Lemma isoDate_time_value_whole_days y m d :
  (daysFromCivil y m d * msPerDay) mod msPerDay = 0.
Proof. apply Z.mod_mul. unfold msPerDay. lia. Qed.

(** X1.  On a host whose local time is at or ahead of UTC by less than a
    day, [formatDate] renders every valid date-only string [YYYY-MM-DD]
    (four-digit years from 1000) as the long en-US form of that same day:
    month name, day of month, year. *)
Theorem formatDate_shows_written_date (env : Env) (y m d : Z) :
  1000 <= y <= 9999 -> 1 <= m <= 12 -> 1 <= d <= daysInMonth y m ->
  0 <= LocalTZA env (daysFromCivil y m d * msPerDay) < msPerDay ->
  Blogs.formatDate env (isoDate y m d)
    = (monthName m ++ " " ++ decimal d ++ ", " ++ decimal y)%string.
Proof.
  intros Hy Hm Hd Hoff.
  rewrite (formatDate_east env _ _ (parse_isoDate y m d ltac:(lia) Hm Hd)
             (isoDate_time_value_whole_days y m d) Hoff).
  unfold Day. rewrite Z.div_mul by (unfold msPerDay; lia).
  rewrite civilFromDays_daysFromCivil by assumption. reflexivity.
Qed.

Lemma formatDate_shows_written_date_witness :
  (1000 <= 2024 <= 9999 /\ 1 <= 2 <= 12 /\ 1 <= 29 <= daysInMonth 2024 2 /\
   0 <= LocalTZA UTC (daysFromCivil 2024 2 29 * msPerDay) < msPerDay) /\
  Blogs.formatDate UTC "2024-02-29" = "February 29, 2024"%string.
Proof.
  assert (H1 : 1000 <= 2024 <= 9999) by lia.
  assert (H2 : 1 <= 2 <= 12) by lia.
  assert (H3 : 1 <= 29 <= daysInMonth 2024 2) by (vm_compute; split; discriminate).
  assert (H4 : 0 <= LocalTZA UTC (daysFromCivil 2024 2 29 * msPerDay) < msPerDay)
    by (vm_compute; split; [discriminate | reflexivity]).
  split; [auto|].
  exact (formatDate_shows_written_date UTC 2024 2 29 H1 H2 H3 H4).
Defined.

(** X2.  On a host whose local time is behind UTC by up to a day,
    [formatDate] renders every valid date-only string as the calendar day
    before the one that is written, across month ends, leap days and year
    ends alike. *)
Theorem formatDate_shows_previous_day (env : Env) (y m d : Z) :
  1001 <= y <= 9999 -> 1 <= m <= 12 -> 1 <= d <= daysInMonth y m ->
  - msPerDay <= LocalTZA env (daysFromCivil y m d * msPerDay) < 0 ->
  Blogs.formatDate env (isoDate y m d) = longDate (dayBefore (y, m, d)).
Proof.
  intros Hy Hm Hd Hoff.
  rewrite (formatDate_west env _ _ (parse_isoDate y m d ltac:(lia) Hm Hd)
             (isoDate_time_value_whole_days y m d) Hoff).
  unfold Day. rewrite Z.div_mul by (unfold msPerDay; lia).
  pose proof (daysFromCivil_dayBefore y m d Hm Hd) as Hb.
  destruct (dayBefore (y, m, d)) as [[y' m'] d'].
  destruct Hb as (-> & Hm' & Hd').
  rewrite civilFromDays_daysFromCivil by assumption. reflexivity.
Qed.

Lemma formatDate_shows_previous_day_witness :
  (1001 <= 2025 <= 9999 /\ 1 <= 1 <= 12 /\ 1 <= 1 <= daysInMonth 2025 1 /\
   - msPerDay <= LocalTZA NewYorkWinter (daysFromCivil 2025 1 1 * msPerDay) < 0) /\
  Blogs.formatDate NewYorkWinter "2025-01-01" = "December 31, 2024"%string.
Proof.
  assert (H1 : 1001 <= 2025 <= 9999) by lia.
  assert (H2 : 1 <= 1 <= 12) by lia.
  assert (H3 : 1 <= 1 <= daysInMonth 2025 1) by (vm_compute; split; discriminate).
  assert (H4 : - msPerDay
               <= LocalTZA NewYorkWinter (daysFromCivil 2025 1 1 * msPerDay) < 0)
    by (vm_compute; split; [discriminate | reflexivity]).
  split; [auto|].
  exact (formatDate_shows_previous_day NewYorkWinter 2025 1 1 H1 H2 H3 H4).
Defined.
End DateExtras.

(** ** ContactPage: further properties *)

Section ContactExtras.
Import Contact.
Local Open Scope N_scope.

(** The delay timer alone in the queue, run past the reset that it sets. *)
Lemma advance_cycle t w t0 :
  timers w = [{| setAt := t0; delay := 2000; callback := resumeSubmit |}] →
  now w <= t0 + 2000 → t0 + 5000 <= t →
  advance t w
    = ([{| setAt := t0; delay := 2000; callback := resumeSubmit |};
        {| setAt := t0 + 2000; delay := 3000; callback := resetForm |}],
       {| now := t; state := initial; timers := [] |}).
Proof.
  intros H Hnow Ht. unfold advance. rewrite H.
  change (pendingWork _) with 2%nat.
  rewrite (advanceWith_fire _ _ _ _ _ H) by (unfold due; simpl; lia).
  assert (Hmax : N.max (now w) (t0 + 2000) = t0 + 2000) by lia.
  assert (Hq : timers (fireTimer {| setAt := t0; delay := 2000;
                                    callback := resumeSubmit |} [] w)
               = [{| setAt := t0 + 2000; delay := 3000; callback := resetForm |}]).
  { unfold fireTimer, due. simpl. rewrite Hmax. reflexivity. }
  rewrite (advanceWith_fire _ _ _ _ _ Hq) by (unfold due; simpl; lia).
  rewrite advanceWith_idle by reflexivity.
  unfold fireTimer, due. simpl. rewrite Hmax.
  unfold setNow, initial. simpl. f_equal. f_equal. lia.
Qed.

(** X3.  A whole submission cycle returns the page to its initial state,
    whenever its timers fire.  After an accepted submission, and whatever
    the user types right after it, the pending timer is the 2000 ms delay;
    when it fires, at whatever reading [t1] of the clock, the only pending
    timer is the 3000 ms reset, set at that moment; and when that fires, at
    whatever reading [t2], the page is in its initial state (both flags
    false, the empty form) with no timer pending. *)
Theorem submit_cycle_returns_to_initial
    (w w1 : World) (edits : list (string * string)) (t1 t2 : N) :
  reachable w → dispatch submit w = Some w1 →
  ∃ w2 w3,
    fire (setNow t1 (typing edits w1))
      = Some ({| setAt := now w; delay := 2000; callback := resumeSubmit |},
              w2) ∧
    timers w2 = [{| setAt := now w2; delay := 3000; callback := resetForm |}] ∧
    fire (setNow t2 w2)
      = Some ({| setAt := now w2; delay := 3000; callback := resetForm |},
              w3) ∧
    state w3 = initial ∧ timers w3 = [].
Proof.
  intros Hreach Hd.
  apply dispatch_submit_inv in Hd as (Hs1 & Hs2 & ->).
  assert (Hq : timers w = []).
  { destruct (reachable_phase w Hreach) as [_ _ H | t0 H | t0 _ H];
      [exact H | congruence | congruence]. }
  destruct (typing_frame edits (handleSubmit w)) as (_ & Htm & _ & _).
  assert (Hq1 : timers (setNow t1 (typing edits (handleSubmit w)))
                = [{| setAt := now w; delay := 2000; callback := resumeSubmit |}]).
  { cbn [setNow timers]. rewrite Htm. simpl. rewrite Hq. reflexivity. }
  eexists _, _.
  split; [unfold fire; rewrite Hq1; reflexivity|].
  split; [reflexivity|].
  split; [reflexivity|].
  split; reflexivity.
Qed.

Lemma submit_cycle_returns_to_initial_witness :
  reachable mounted ∧
  dispatch submit mounted = Some (handleSubmit mounted) ∧
  ∃ w2 w3,
    fire (setNow 2300 (typing [("name", "Ann"); ("message", "Hello")]
                         (handleSubmit mounted)))
      = Some ({| setAt := now mounted; delay := 2000;
                 callback := resumeSubmit |}, w2) ∧
    timers w2 = [{| setAt := now w2; delay := 3000; callback := resetForm |}] ∧
    fire (setNow 5600 w2)
      = Some ({| setAt := now w2; delay := 3000; callback := resetForm |},
              w3) ∧
    state w3 = initial ∧ timers w3 = [].
Proof.
  assert (Hr : reachable mounted) by apply rtc_refl.
  assert (Hd : dispatch submit mounted = Some (handleSubmit mounted))
    by reflexivity.
  split; [exact Hr|]. split; [exact Hd|].
  exact (submit_cycle_returns_to_initial mounted (handleSubmit mounted)
           [("name", "Ann"); ("message", "Hello")] 2300 5600 Hr Hd).
Defined.

(** X5.  In every reachable state at most one timer is pending.  None is
    pending exactly when both flags are false; the pending timer is the
    delay exactly when [isSubmitting] is true, and the reset exactly when
    [isSubmitted] is true. *)
Theorem at_most_one_timer_pending (w : World) :
  reachable w →
  (length (timers w) <= 1)%nat ∧
  (timers w = [] ↔
   isSubmitting (state w) = false ∧ isSubmitted (state w) = false) ∧
  (map callback (timers w) = [resumeSubmit] ↔
   isSubmitting (state w) = true) ∧
  (map callback (timers w) = [resetForm] ↔
   isSubmitted (state w) = true).
Proof.
  intros Hreach.
  destruct (reachable_phase w Hreach)
    as [H1 H2 H3 | t0 H1 H2 H3 H4 | t0 H1 H2 H3 H4];
    rewrite H3, H1, H2; simpl.
  - split; [lia|]. split; [tauto|]. split; split; discriminate.
  - split; [lia|]. split; [split; [discriminate | intros [? _]; discriminate]|].
    split; [tauto|]. split; discriminate.
  - split; [lia|]. split; [split; [discriminate | intros [_ ?]; discriminate]|].
    split; [split; discriminate | tauto].
Qed.

Lemma at_most_one_timer_pending_witness :
  reachable (handleSubmit mounted) ∧
  (length (timers (handleSubmit mounted)) <= 1)%nat ∧
  map callback (timers (handleSubmit mounted)) = [resumeSubmit].
Proof.
  split; [exact reachable_submitted|].
  split; [exact (proj1 (at_most_one_timer_pending _ reachable_submitted))|].
  exact (proj2 (proj1 (proj2 (proj2
    (at_most_one_timer_pending _ reachable_submitted)))) eq_refl).
Defined.

Lemma step_now_mono w w' : step w w' → now w <= now w'.
Proof.
  intros Hs. destruct Hs as [e w w' Hd | w tm w' Hf | w t Hle Hall].
  - destruct e as [field value|].
    + apply dispatch_edit_inv in Hd as (_ & _ & ->). simpl. lia.
    + apply dispatch_submit_inv in Hd as (_ & _ & ->). simpl. lia.
  - unfold fire in Hf. destruct (timers w) as [|tm' q]; [discriminate|].
    injection Hf as <- <-. unfold fireTimer.
    destruct (callback tm'); simpl; lia.
  - simpl. exact Hle.
Qed.

Lemma SinceSubmit_step t w w' :
  reachable w → SinceSubmit t w → step w w' → SinceSubmit t w'.
Proof.
  intros Hreach HS Hstep.
  pose proof (step_now_mono _ _ Hstep) as Hmono.
  pose proof (reachable_phase w Hreach) as HP.
  destruct HS as [[Hq Hn] | [[Hq Hn] | Hover]];
    [| | right; right; lia].
  - destruct HP as [_ _ H3 | t0 H1 H2 H3 H4 | t0 _ _ H3 _];
      rewrite Hq in H3; try discriminate.
    destruct Hstep as [e w w' Hd | w tm w' Hf | w t' Hle Hall].
    + destruct e as [field value|].
      * apply dispatch_edit_inv in Hd as (_ & _ & ->). left. split; assumption.
      * apply dispatch_submit_inv in Hd as (_ & Hs & _). congruence.
    + unfold fire in Hf. rewrite Hq in Hf. injection Hf as <- <-.
      right. left. unfold fireTimer, due. simpl.
      replace (N.max (now w) (t + 2000)) with (t + 2000) by lia.
      split; [reflexivity | lia].
    + left. split; [exact Hq|]. simpl.
      rewrite Hq in Hall. rewrite Forall_singleton in Hall.
      unfold due in Hall. simpl in Hall. exact Hall.
  - destruct HP as [_ _ H3 | t0 _ _ H3 _ | t0 H1 H2 H3 H4];
      rewrite Hq in H3; try discriminate.
    destruct Hstep as [e w w' Hd | w tm w' Hf | w t' Hle Hall].
    + destruct e as [field value|].
      * apply dispatch_edit_inv in Hd as (Hs & _ & _). congruence.
      * apply dispatch_submit_inv in Hd as (Hs & _ & _). congruence.
    + unfold fire in Hf. rewrite Hq in Hf. injection Hf as <- <-.
      right. right. unfold fireTimer, due. simpl. lia.
    + right. left. split; [exact Hq|]. simpl.
      rewrite Hq in Hall. rewrite Forall_singleton in Hall.
      unfold due in Hall. simpl in Hall. lia.
Qed.

(** X6.  Two accepted submissions are at least 5000 ms apart: after a
    submission accepted at time [t], along any run of the page, the next
    submission is accepted no earlier than [t + 5000]. *)
Theorem submissions_five_seconds_apart (w w1 v v1 : World) :
  reachable w → dispatch submit w = Some w1 →
  rtc step w1 v → dispatch submit v = Some v1 →
  now w + 5000 <= now v.
Proof.
  intros Hreach Hd Hrun Hd'.
  assert (Hreach1 : reachable w1).
  { apply (reachable_step w); [exact Hreach | exact (step_user submit _ _ Hd)]. }
  apply dispatch_submit_inv in Hd as (Hs1 & Hs2 & ->).
  assert (Hq : timers w = []).
  { destruct (reachable_phase w Hreach) as [_ _ H | t0 H | t0 _ H];
      [exact H | congruence | congruence]. }
  assert (Hinv : reachable v ∧ SinceSubmit (now w) v).
  { refine (rtc_ind_r (fun v => reachable v ∧ SinceSubmit (now w) v)
              (handleSubmit w) _ _ v Hrun).
    - split; [exact Hreach1|]. left. simpl. rewrite Hq. split; [reflexivity | lia].
    - intros v2 v3 _ Hstep [Hr HS]. split.
      + exact (reachable_step _ _ Hr Hstep).
      + exact (SinceSubmit_step _ _ _ Hr HS Hstep). }
  destruct Hinv as [Hrv HS].
  apply dispatch_submit_inv in Hd' as (Hv1 & Hv2 & _).
  assert (Hqv : timers v = []).
  { destruct (reachable_phase v Hrv) as [_ _ H | t0 H | t0 _ H];
      [exact H | congruence | congruence]. }
  destruct HS as [[Hq' _] | [[Hq' _] | Hover]];
    [rewrite Hqv in Hq'; discriminate | rewrite Hqv in Hq'; discriminate | exact Hover].
Qed.

Lemma submissions_five_seconds_apart_witness :
  let v := (advance 5000 (handleSubmit mounted)).2 in
  reachable mounted ∧
  dispatch submit mounted = Some (handleSubmit mounted) ∧
  rtc step (handleSubmit mounted) v ∧
  dispatch submit v = Some (handleSubmit v) ∧
  now mounted + 5000 <= now v.
Proof.
  intros v.
  assert (Hr : reachable mounted) by apply rtc_refl.
  assert (Hd : dispatch submit mounted = Some (handleSubmit mounted))
    by reflexivity.
  assert (Hrun : rtc step (handleSubmit mounted) v).
  { eapply rtc_l; [|eapply rtc_l; [|apply rtc_refl]].
    - apply (step_fire _ {| setAt := 0; delay := 2000; callback := resumeSubmit |}).
      reflexivity.
    - apply (step_fire _ {| setAt := 2000; delay := 3000; callback := resetForm |}).
      reflexivity. }
  assert (Hd' : dispatch submit v = Some (handleSubmit v)) by reflexivity.
  split; [exact Hr|]. split; [exact Hd|]. split; [exact Hrun|].
  split; [exact Hd'|].
  exact (submissions_five_seconds_apart mounted _ v _ Hr Hd Hrun Hd').
Defined.

(** X7.  In every reachable state [formData] has exactly the four
    properties "name", "email", "subject" and "message": the computed key
    of [handleInputChange] never adds a property, and none is ever
    missing, so no input of the form reads an undefined value. *)
Theorem formData_keeps_its_four_properties (w : World) :
  reachable w →
  dom (formData (state w)) = dom emptyForm ∧
  ∀ k, k ∈ ["name"; "email"; "subject"; "message"] ↔
       is_Some (formData (state w) !! k).
Proof.
  intros Hreach.
  assert (Hdom : dom (formData (state w)) = dom emptyForm).
  { unfold reachable in Hreach.
    refine (rtc_ind_r (fun w => dom (formData (state w)) = dom emptyForm)
              mounted _ _ w Hreach); [reflexivity|].
    intros w1 w2 _ Hstep IH.
    destruct Hstep as [e w1 w2 Hd | w1 tm w2 Hf | w1 t Hle Hall].
    - destruct e as [field value|].
      + apply dispatch_edit_inv in Hd as (_ & Hin & ->). simpl.
        rewrite dom_insert_L, IH.
        assert (field ∈ dom emptyForm).
        { rewrite !elem_of_cons in Hin.
          destruct Hin as [-> | [-> | [-> | [-> | Hin]]]];
            [| | | | inversion Hin]; apply elem_of_dom; eexists; reflexivity. }
        apply subseteq_union_1_L, singleton_subseteq_l. assumption.
      + apply dispatch_submit_inv in Hd as (_ & _ & ->). exact IH.
    - unfold fire in Hf. destruct (timers w1) as [|tm' q]; [discriminate|].
      injection Hf as <- <-. unfold fireTimer.
      destruct (callback tm'); [exact IH | reflexivity].
    - exact IH. }
  split; [exact Hdom|].
  intros k. rewrite <- elem_of_dom, Hdom.
  split.
  - intros Hin. rewrite !elem_of_cons in Hin.
    destruct Hin as [-> | [-> | [-> | [-> | Hin]]]];
      [| | | | inversion Hin]; apply elem_of_dom; eexists; reflexivity.
  - intros Hin. unfold emptyForm in Hin.
    rewrite !dom_insert_L, dom_empty_L in Hin.
    rewrite !elem_of_union, !elem_of_singleton, elem_of_empty in Hin.
    rewrite !elem_of_cons. tauto.
Qed.

Lemma formData_keeps_its_four_properties_witness :
  reachable (handleSubmit mounted) ∧
  dom (formData (state (handleSubmit mounted))) = dom emptyForm.
Proof.
  split; [exact reachable_submitted|].
  exact (proj1 (formData_keeps_its_four_properties _ reachable_submitted)).
Defined.

(** X8.  Two calls of [handleInputChange] compose as writes to a record:
    on the same field the later value replaces the earlier one, and on
    different fields the order of the two calls does not matter. *)
Theorem handleInputChange_compose (s : State) (n m u v : string) :
  handleInputChange n v (handleInputChange n u s) = handleInputChange n v s ∧
  (n ≠ m →
   handleInputChange n v (handleInputChange m u s)
     = handleInputChange m u (handleInputChange n v s)).
Proof.
  unfold handleInputChange, setFormData. simpl. split.
  - rewrite insert_insert_eq. reflexivity.
  - intros Hne. f_equal. apply insert_insert_ne. congruence.
Qed.

Lemma handleInputChange_compose_witness :
  "name" ≠ "email" ∧
  handleInputChange "name" "Ann" (handleInputChange "email" "a@b.c" initial)
    = handleInputChange "email" "a@b.c" (handleInputChange "name" "Ann" initial).
Proof.
  assert (H : "name" ≠ "email") by discriminate.
  split; [exact H|].
  exact (proj2 (handleInputChange_compose initial "name" "email" "a@b.c" "Ann") H).
Defined.

Lemma typing_app a b w : typing (a ++ b)%list w = typing b (typing a w).
Proof. unfold typing. apply foldl_app. Qed.

Lemma typing_untouched edits w k :
  k ∉ edits.*1 →
  formData (state (typing edits w)) !! k = formData (state w) !! k.
Proof.
  unfold typing. revert w.
  induction edits as [|[n v] edits IH]; intros w Hk; simpl; [reflexivity|].
  simpl in Hk. apply not_elem_of_cons in Hk as [Hne Hk].
  rewrite (IH _ Hk). simpl. apply lookup_insert_ne. congruence.
Qed.

(** X9.  After any run of [handleInputChange] calls a field holds the
    value of the last call that named it, and a property that no call named
    is as it was. *)
Theorem typing_last_edit_wins
    (before after : list (string * string)) (n v : string) (w : World) :
  n ∉ after.*1 →
  formData (state (typing (before ++ (n, v) :: after)%list w)) !! n = Some v ∧
  property (formData (state (typing (before ++ (n, v) :: after)%list w))) n = v ∧
  (∀ k, k ∉ (before ++ (n, v) :: after)%list.*1 →
     formData (state (typing (before ++ (n, v) :: after)%list w)) !! k
       = formData (state w) !! k).
Proof.
  intros Hn.
  assert (H : formData (state (typing (before ++ (n, v) :: after)%list w)) !! n
              = Some v).
  { rewrite typing_app.
    change ((n, v) :: after) with ([(n, v)] ++ after)%list.
    rewrite typing_app, (typing_untouched after _ n Hn).
    simpl. apply lookup_insert_eq. }
  split; [exact H|]. split; [unfold property; rewrite H; reflexivity|].
  intros k Hk. exact (typing_untouched _ w k Hk).
Qed.

Lemma typing_last_edit_wins_witness :
("name" ∉ [("email", "a@b.c")].*1) ∧
  formData (state (typing ([("name", "An")] ++ ("name", "Ann")
                             :: [("email", "a@b.c")])%list mounted)) !! "name"
    = Some "Ann".
Proof.
  assert (H : "name" ∉ [("email", "a@b.c")].*1).
  { intros Hin. apply list_elem_of_singleton in Hin. discriminate Hin. }
  split; [exact H|].
  exact (proj1 (typing_last_edit_wins [("name", "An")] [("email", "a@b.c")]
                  "name" "Ann" mounted H)).
Defined.

(** X10.  The inputs stay editable while a submission is in flight: an
    edit of one of the four fields is accepted and the field shows the new
    value; the reset that ends the submission then discards it with the
    rest of the form. *)
Theorem edits_while_sending_are_discarded (w : World) (n v : string) :
  reachable w → isSubmitting (state w) = true →
  n ∈ ["name"; "email"; "subject"; "message"] →
  dispatch (edit n v) w = Some (setState (handleInputChange n v) w) ∧
  fieldValueOf n (ContactPage (state (setState (handleInputChange n v) w)))
    = Some v ∧
  formData (state (advance (now w + 5000)
                     (setState (handleInputChange n v) w)).2) = emptyForm.
Proof.
  intros Hreach Hsub Hn.
  destruct (reachable_phase w Hreach) as [H _ _ | t0 H1 H2 H3 H4 | t0 H _ _ _];
    try congruence.
  split; [|split].
  - unfold dispatch. simpl. rewrite H2.
    rewrite bool_decide_eq_true_2 by exact Hn. reflexivity.
  - unfold fieldValueOf. simpl. rewrite H2.
    rewrite !elem_of_cons in Hn.
    destruct Hn as [-> | [-> | [-> | [-> | Hn]]]]; [| | | | inversion Hn];
      simpl; unfold property; rewrite ?lookup_insert_eq; reflexivity.
  - rewrite (advance_cycle _ (setState (handleInputChange n v) w) t0 H3)
      by (simpl; lia).
    reflexivity.
Qed.

Lemma edits_while_sending_are_discarded_witness :
  reachable (handleSubmit mounted) ∧
  isSubmitting (state (handleSubmit mounted)) = true ∧
  "message" ∈ ["name"; "email"; "subject"; "message"] ∧
  formData (state (advance (now (handleSubmit mounted) + 5000)
     (setState (handleInputChange "message" "one more thing")
        (handleSubmit mounted))).2) = emptyForm.
Proof.
  assert (Hn : "message" ∈ ["name"; "email"; "subject"; "message"])
    by (repeat constructor).
  split; [exact reachable_submitted|]. split; [reflexivity|].
  split; [exact Hn|].
  exact (proj2 (proj2 (edits_while_sending_are_discarded
    (handleSubmit mounted) "message" "one more thing"
    reachable_submitted eq_refl Hn))).
Defined.
End ContactExtras.

(** ** Navigation, BlogsPage and HomePage: further properties *)

Section NavigationExtras.
Import Widget Nav.

(** X11.  After [n] presses of the menu button the menu is open exactly
    when [n] is odd (from any state: [isOpen] is flipped when [n] is odd);
    the button then shows the close icon and the three mobile links are on
    screen, and otherwise the menu icon and no mobile link. *)
Theorem menu_button_parity (n : nat) (isOpen : State) :
  Nat.iter n (fun s => clickButton handle (menuButton (Navigation s)) s) isOpen
    = xorb isOpen (Nat.odd n) ∧
  menuIcon (Navigation
      (Nat.iter n (fun s => clickButton handle (menuButton (Navigation s)) s)
                initial))
    = (if Nat.odd n then X else Menu) ∧
  map label (renderedMobileLinks (Navigation
      (Nat.iter n (fun s => clickButton handle (menuButton (Navigation s)) s)
                initial)))
    = (if Nat.odd n then ["Home"; "Contact"; "Blogs"] else []).
Proof.
  assert (H : ∀ b, Nat.iter n
      (fun s => clickButton handle (menuButton (Navigation s)) s) b
      = xorb b (Nat.odd n)).
  { induction n as [|n IH]; intros b.
    - simpl. destruct b; reflexivity.
    - rewrite Nat.iter_succ, IH, Nat.odd_succ, <- Nat.negb_odd.
      change (clickButton handle (menuButton (Navigation ?s)) ?s)
        with (negb s).
      destruct b, (Nat.odd n); reflexivity. }
  split; [apply H|]. rewrite H. unfold initial.
  destruct (Nat.odd n); split; reflexivity.
Qed.
End NavigationExtras.

Section BlogsExtras.
Import Widget Blogs.

Lemma featuredCard_key env posts :
  map key (map (featuredCard env) posts) = map id posts.
Proof. rewrite map_map. reflexivity. Qed.

Lemma recentCard_key env posts :
  map key (map (recentCard env) posts) = map id posts.
Proof. rewrite map_map. reflexivity. Qed.

(** X12.  Every post is rendered exactly once: for any array of posts the
    keys of the featured cards followed by those of the recent cards are a
    permutation of the posts' ids, and on the page these keys are pairwise
    distinct. *)
Theorem every_post_rendered_once (env : JSDate.Env) (posts : list BlogPost) :
  map key (map (featuredCard env) (featuredOf posts)
           ++ map (recentCard env) (recentOf posts))%list ≡ₚ map id posts ∧
  map key (featuredSection (BlogsPage env)
           ++ recentSection (BlogsPage env))%list ≡ₚ map id blogPosts ∧
  NoDup (map key (featuredSection (BlogsPage env)
                  ++ recentSection (BlogsPage env))%list).
Proof.
  assert (H : ∀ ps, map key (map (featuredCard env) (featuredOf ps)
                       ++ map (recentCard env) (recentOf ps))%list
                    ≡ₚ map id ps).
  { intros ps. rewrite map_app, featuredCard_key, recentCard_key, <- map_app.
    apply fmap_Permutation, featuredOf_recentOf_perm. }
  split; [apply H|].
  assert (Hp : map key (featuredSection (BlogsPage env)
                  ++ recentSection (BlogsPage env))%list ≡ₚ map id blogPosts)
    by apply (H blogPosts).
  split; [exact Hp|]. rewrite Hp. apply blogPosts_ids_distinct.
Qed.
End BlogsExtras.

Section HomeExtras.
Import Widget Home.

(** X13.  The title of a skill card never shows two icons: the chain of
    tests yields at most one icon for any category name, exactly one for
    each key of [skills], and none for any other name. *)
Theorem categoryIcons_at_most_one (category : string) :
  (length (categoryIcons category) <= 1)%nat ∧
  (category ∈ skills.*1 → length (categoryIcons category) = 1%nat) ∧
  (category ∉ skills.*1 → categoryIcons category = []).
Proof.
  unfold categoryIcons.
  destruct (String.eqb_spec category "Programming Languages") as [->|H1];
    [split; [simpl; lia | split; [reflexivity|]]; intros H; exfalso; apply H;
     vm_compute; repeat constructor |].
  destruct (String.eqb_spec category "Data Management") as [->|H2];
    [split; [simpl; lia | split; [reflexivity|]]; intros H; exfalso; apply H;
     vm_compute; repeat constructor |].
  destruct (String.eqb_spec category "AI & Machine Learning") as [->|H3];
    [split; [simpl; lia | split; [reflexivity|]]; intros H; exfalso; apply H;
     vm_compute; repeat constructor |].
  destruct (String.eqb_spec category "Web Development") as [->|H4];
    [split; [simpl; lia | split; [reflexivity|]]; intros H; exfalso; apply H;
     vm_compute; repeat constructor |].
  destruct (String.eqb_spec category "Tools & Platforms") as [->|H5];
    [split; [simpl; lia | split; [reflexivity|]]; intros H; exfalso; apply H;
     vm_compute; repeat constructor |].
  destruct (String.eqb_spec category "Blockchain") as [->|H6];
    [split; [simpl; lia | split; [reflexivity|]]; intros H; exfalso; apply H;
     vm_compute; repeat constructor |].
  split; [simpl; lia|]. split; [|reflexivity].
  intros Hin. exfalso. simpl in Hin.
  rewrite !elem_of_cons in Hin.
  destruct Hin as [?|[?|[?|[?|[?|[?|Hin]]]]]]; try contradiction.
  inversion Hin.
Qed.

Lemma categoryIcons_at_most_one_witness :
  "Blockchain" ∈ skills.*1 ∧
  length (categoryIcons "Blockchain") = 1%nat.
Proof.
  assert (H : "Blockchain" ∈ skills.*1) by (vm_compute; repeat constructor).
  split; [exact H|].
  exact (proj1 (proj2 (categoryIcons_at_most_one "Blockchain")) H).
Defined.
End HomeExtras.
